(** * InnerBag: bootstrap bag generation of the EBM native core

    A shallow embedding of [shared/ebm_native/InnerBag.cpp] and the
    properties of its two bag factories ([GenerateSingleInnerBag],
    [GenerateFlatInnerBag]) and of the bag-set orchestration
    ([GenerateInnerBags], [FreeInnerBags]).

    - [size_t] is a 64-bit unsigned integer, carried as [Z] with its
      wrap-around written out.
    - [FloatFast] and [FloatBig] are IEEE 754 binary floating-point numbers,
      carried as [spec_float]; the two typedefs live in [ebm_internal.hpp],
      so their formats are parameters of the development.
    - The C heap is the set of live blocks together with a script that tells
      which of the coming allocations return [nullptr].
    - The random generator and the safe summation routine are collaborators
      declared in other headers; they are parameters too. *)

From Stdlib Require Import ZArith Lia Bool List.
From Stdlib Require Import Floats.SpecFloat.
From stdpp Require Import base tactics option list sets gmap.

Local Open Scope Z_scope.
#[local] Set Warnings "-clear-no-such-hyp".

(** ** Machine integers *)

Abbreviation size_t := Z (only parsing).

Definition SIZE_MAX : Z := 2 ^ 64 - 1.

(** The value an unsigned 64-bit computation keeps. *)
Definition size_t_wrap (z : Z) : size_t := z mod 2 ^ 64.

(** ** Floating point *)

(** Values of the fast and of the big precision. *)
Abbreviation FloatFast := spec_float (only parsing).
Abbreviation FloatBig := spec_float (only parsing).

(** The binary interchange formats a C++ [float] or [double] can have. *)
Variant binary_format := binary32 | binary64.

Definition prec (f : binary_format) : Z :=
  match f with binary32 => 24 | binary64 => 53 end.

Definition emax (f : binary_format) : Z :=
  match f with binary32 => 128 | binary64 => 1024 end.

(** [static_cast<F>(n)] for an unsigned integer [n]: round to nearest, ties
    to even. *)
Definition float_of_size_t (f : binary_format) (n : size_t) : spec_float :=
  binary_normalize (prec f) (emax f) n 0 false.

(** The literal [1] stored into a float of format [f]. *)
Definition float_one (f : binary_format) : spec_float := float_of_size_t f 1.

(** [x * y] computed in format [f]. *)
Definition float_mul (f : binary_format) (x y : spec_float) : spec_float :=
  SFmul (prec f) (emax f) x y.

(** [std::isnan], [std::isinf] and the comparisons with the literal [0]. *)
Definition isnan (x : spec_float) : bool :=
  match x with S754_nan => true | _ => false end.

Definition isinf (x : spec_float) : bool :=
  match x with S754_infinity _ => true | _ => false end.

Definition float_zero : spec_float := S754_zero false.

Definition le_zero (x : spec_float) : bool := SFleb x float_zero.

Definition gt_zero (x : spec_float) : bool := SFltb float_zero x.

(** The guard [isnan(total) || isinf(total) || total <= 0] of both
    factories. *)
Definition invalid_total (total : spec_float) : bool :=
  isnan total || isinf total || le_zero total.

(** The integer a finite float stands for, when it stands for one. *)
Definition float_is_integer (x : spec_float) (n : Z) : Prop :=
  match x with
  | S754_zero _ => n = 0
  | S754_finite s m e =>
      e <= 0 /\ Z.pos m = (if s then - n else n) * 2 ^ (- e)
  | _ => False
  end.

(** A weight the factories are meant for: a zero, or a finite number above
    zero whose exponent and magnitude are within the range of format [f]. *)
Definition finite_nonneg (f : binary_format) (x : spec_float) : bool :=
  match x with
  | S754_zero _ => true
  | S754_finite false m e =>
      (SpecFloat.emin (prec f) (emax f) <=? e) && (Z.log2 (Z.pos m) + e <? emax f)
  | _ => false
  end.

(** A finite number above zero. *)
Definition finite_positive (x : spec_float) : bool :=
  match x with S754_finite false _ _ => true | _ => false end.

(** ** Collaborators

    What [InnerBag.cpp] takes from other headers:
    - [ebm_internal.hpp]: the formats of the typedefs [FloatFast] and
      [FloatBig], and [AddPositiveFloatsSafeBig], the safe summation of
      [cVals] non-negative floats of the fast precision into one of the big
      precision;
    - [RandomDeterministic.hpp]: the generator's state and its bounded draw;
      [NextFast r n] returns the index drawn and the advanced state. *)

Class Collaborators := {
  fmtFast : binary_format;
  fmtBig : binary_format;
  RandomDeterministic : Type;
  NextFast : RandomDeterministic -> size_t -> size_t * RandomDeterministic;
  AddPositiveFloatsSafeBig : size_t -> list FloatFast -> FloatBig
}.

(** The contract of the bounded draw: the index is below the bound. *)
Definition NextFast_in_range {C : Collaborators} : Prop :=
  forall (r : RandomDeterministic) (n : size_t),
    0 < n -> 0 <= fst (NextFast r n) < n.

(** Modelled from the spec: [AddPositiveFloatsSafeBig] is defined in
    [ebm_internal.hpp]. Given non-negative values of the fast precision it
    returns a sum of the big precision that neither overflows silently nor
    loses correctness to cancellation, and a non-finite result when an input
    is not finite or the true sum is not finitely representable. For
    [cVals <= SIZE_MAX] finite non-negative values of a fast precision whose
    sums all fit the big precision, this is: the result is a finite number,
    and it is above zero exactly when one of the values is. *)
Definition AddPositiveFloatsSafeBig_safe {C : Collaborators} : Prop :=
  forall (cVals : size_t) (a : list FloatFast),
    0 <= cVals <= SIZE_MAX -> length a = Z.to_nat cVals ->
    Forall (fun x => finite_nonneg fmtFast x = true) a ->
    isnan (AddPositiveFloatsSafeBig cVals a) = false /\
    isinf (AddPositiveFloatsSafeBig cVals a) = false /\
    (gt_zero (AddPositiveFloatsSafeBig cVals a) = true <->
     Exists (fun x => finite_positive x = true) a).

(** ** The heap *)

Abbreviation block := nat (only parsing).

(** An array on the heap: where it is and what it holds. *)
Record array (A : Type) := mkArray { base : block; elems : list A }.
Arguments mkArray {A} _ _.
Arguments base {A} _.
Arguments elems {A} _.

Section InnerBag.

Context {C : Collaborators}.

(** What the program can observe and change: the live heap blocks, the
    outcomes of the coming allocations ([true]: that call returns
    [nullptr]; past the end of the script every call succeeds) and the
    generator [*pRng] shared by all the calls. *)
Record World := mkWorld {
  live : gset block;
  oom : list bool;
  rng : RandomDeterministic
}.

(** Modelled from the spec: [EbmMalloc<T>(cItems)] is declared in
    [ebm_internal.hpp]; it returns a block that was not live, or [nullptr]
    when the allocation fails. The script decides which, whatever the size
    asked for. *)
Definition EbmMalloc (cItems : size_t) (w : World) : option block * World :=
  match oom w with
  | true :: script => (None, mkWorld (live w) script (rng w))
  | _ =>
      let p := fresh (live w) in
      (Some p, mkWorld ({[ p ]} ∪ live w) (tail (oom w)) (rng w))
  end.

(** [free(p)]; [free(nullptr)] does nothing. *)
Definition free (p : option block) (w : World) : World :=
  match p with
  | None => w
  | Some b => mkWorld (live w ∖ {[ b ]}) (oom w) (rng w)
  end.

(** ** Bags *)

(** A bag handed to the caller: the struct at [this] with its two owned
    arrays and its total. *)
Record InnerBag := mkInnerBag {
  this : block;
  m_aCountOccurrences : array size_t;
  m_aWeights : array FloatFast;
  m_weightTotal : FloatBig
}.

(** Why a factory returned [nullptr]: each of its [return nullptr] sites
    logs its own warning; the sites that follow a failed [EbmMalloc] are
    [AllocationFailure], the one behind the total's check is
    [InvalidAggregateWeight]. *)
Variant failure := AllocationFailure | InvalidAggregateWeight.

(** [InnerBag::Free] on the struct at [pRet], whose pointer members are
    [aCountOccurrences] and [aWeights]: [InitializeUnfailing] made them
    [nullptr] and the factory stores each array there as soon as it is
    allocated. *)
Definition Free (pRet : block) (aCountOccurrences aWeights : option block)
    (w : World) : World :=
  free (Some pRet) (free aWeights (free aCountOccurrences w)).

(** [pInnerBag->Free()] on a finished bag. *)
Definition InnerBag_Free (b : InnerBag) (w : World) : World :=
  Free (this b) (Some (base (m_aCountOccurrences b)))
       (Some (base (m_aWeights b))) w.

Definition bag_blocks (b : InnerBag) : gset block :=
  {[ this b; base (m_aCountOccurrences b); base (m_aWeights b) ]}.

(** The sampling loop: [n] more draws, each incrementing the count at the
    drawn index. An index past the end of the array would be an
    out-of-bounds write in C++; [NextFast_in_range] excludes it, and the
    list is then left as it is. *)
Fixpoint sample_loop (n : nat) (cSamples : size_t)
    (cpuRng : RandomDeterministic) (aCountOccurrences : list size_t)
    : list size_t * RandomDeterministic :=
  match n with
  | O => (aCountOccurrences, cpuRng)
  | S n' =>
      let '(iCountOccurrences, cpuRng') := NextFast cpuRng cSamples in
      sample_loop n' cSamples cpuRng'
        (alter (fun c => size_t_wrap (c + 1)) (Z.to_nat iCountOccurrences)
               aCountOccurrences)
  end.

(** The bootstrap factory, as the release build compiles it (the
    [EBM_ASSERT]s and the [#ifndef NDEBUG] recomputation of the total are
    diagnostics). [cpuRng.Initialize( *pRng)] copies the generator out of the
    world and [pRng->Initialize(cpuRng)] stores it back after the draws.
    [aWeights], when given, points at [cSamples] weights; were the list
    shorter, C++ would read out of bounds where the weights here stop at its
    end. *)
Definition GenerateSingleInnerBag (cSamples : size_t)
    (aWeights : option (list FloatFast)) (w : World)
    : (failure + InnerBag) * World :=
  match EbmMalloc 1 w with
  | (None, w) => (inl AllocationFailure, w)
  | (Some pRet, w) =>
    match EbmMalloc cSamples w with
    | (None, w) => (inl AllocationFailure, Free pRet None None w)
    | (Some aCountOccurrences, w) =>
      match EbmMalloc cSamples w with
      | (None, w) =>
          (inl AllocationFailure, Free pRet (Some aCountOccurrences) None w)
      | (Some aWeightsInternal, w) =>
        let zeroed := replicate (Z.to_nat cSamples) 0 in
        let '(counts, cpuRng) :=
          sample_loop (Z.to_nat cSamples) cSamples (rng w) zeroed in
        let w := mkWorld (live w) (oom w) cpuRng in
        match aWeights with
        | None =>
            let weights := map (float_of_size_t fmtFast) counts in
            let total := float_of_size_t fmtBig cSamples in
            (inr (mkInnerBag pRet (mkArray aCountOccurrences counts)
                    (mkArray aWeightsInternal weights) total), w)
        | Some aWeights =>
            let weights :=
              zip_with (fun c x => float_mul fmtFast (float_of_size_t fmtFast c) x)
                       counts aWeights in
            let total := AddPositiveFloatsSafeBig cSamples weights in
            if invalid_total total then
              (inl InvalidAggregateWeight,
               Free pRet (Some aCountOccurrences) (Some aWeightsInternal) w)
            else
              (inr (mkInnerBag pRet (mkArray aCountOccurrences counts)
                      (mkArray aWeightsInternal weights) total), w)
        end
      end
    end
  end.

(** The flat factory. Of [aWeights] only the first [cSamples] items are
    read, by the summation and by [memcpy] alike. *)
Definition GenerateFlatInnerBag (cSamples : size_t)
    (aWeights : option (list FloatFast)) (w : World)
    : (failure + InnerBag) * World :=
  match EbmMalloc 1 w with
  | (None, w) => (inl AllocationFailure, w)
  | (Some pRet, w) =>
    match EbmMalloc cSamples w with
    | (None, w) => (inl AllocationFailure, Free pRet None None w)
    | (Some aCountOccurrences, w) =>
      match EbmMalloc cSamples w with
      | (None, w) =>
          (inl AllocationFailure, Free pRet (Some aCountOccurrences) None w)
      | (Some aWeightsInternal, w) =>
        let ones := replicate (Z.to_nat cSamples) 1 in
        match aWeights with
        | None =>
            let weights := replicate (Z.to_nat cSamples) (float_one fmtFast) in
            let total := float_of_size_t fmtBig cSamples in
            (inr (mkInnerBag pRet (mkArray aCountOccurrences ones)
                    (mkArray aWeightsInternal weights) total), w)
        | Some aWeights =>
            let aWeights := take (Z.to_nat cSamples) aWeights in
            let total := AddPositiveFloatsSafeBig cSamples aWeights in
            if invalid_total total then
              (inl InvalidAggregateWeight,
               Free pRet (Some aCountOccurrences) (Some aWeightsInternal) w)
            else
              (inr (mkInnerBag pRet (mkArray aCountOccurrences ones)
                      (mkArray aWeightsInternal aWeights) total), w)
        end
      end
    end
  end.

(** ** Bag sets *)

(** The [do { ... } while(cInnerBagsAfterZero != iInnerBag)] loop of
    [FreeInnerBags]. A slot past the end of the sequence would be an
    out-of-bounds read in C++; here it reads as [nullptr]. [None] is a loop
    that has not ended within [fuel] iterations. *)
Fixpoint FreeInnerBags_loop (fuel : nat) (cInnerBagsAfterZero : size_t)
    (apInnerBags : list (option InnerBag)) (iInnerBag : size_t) (w : World)
    : option World :=
  match fuel with
  | O => None
  | S fuel' =>
      let w :=
        match apInnerBags !! Z.to_nat iInnerBag with
        | Some (Some pInnerBag) => InnerBag_Free pInnerBag w
        | _ => w
        end in
      let iInnerBag := size_t_wrap (iInnerBag + 1) in
      if cInnerBagsAfterZero =? iInnerBag then Some w
      else FreeInnerBags_loop fuel' cInnerBagsAfterZero apInnerBags iInnerBag w
  end.

Definition FreeInnerBags (fuel : nat) (cInnerBags : size_t)
    (apInnerBags : option (array (option InnerBag))) (w : World)
    : option World :=
  match apInnerBags with
  | None => Some w
  | Some apInnerBags =>
      let cInnerBagsAfterZero := if 0 =? cInnerBags then 1 else cInnerBags in
      match FreeInnerBags_loop fuel cInnerBagsAfterZero (elems apInnerBags) 0 w with
      | None => None
      | Some w => Some (free (Some (base apInnerBags)) w)
      end
  end.

(** The [do { ... } while(cInnerBags != iInnerBag)] loop of
    [GenerateInnerBags]; [fuelFree] is the fuel of the release it runs when a
    bag cannot be built. *)
Fixpoint GenerateInnerBags_loop (fuel fuelFree : nat) (cSamples : size_t)
    (aWeights : option (list FloatFast)) (cInnerBags : size_t)
    (apInnerBags : array (option InnerBag)) (iInnerBag : size_t) (w : World)
    : option (option (array (option InnerBag)) * World) :=
  match fuel with
  | O => None
  | S fuel' =>
      match GenerateSingleInnerBag cSamples aWeights w with
      | (inl _, w) =>
          match FreeInnerBags fuelFree cInnerBags (Some apInnerBags) w with
          | None => None
          | Some w => Some (None, w)
          end
      | (inr pSingleInnerBag, w) =>
          let apInnerBags :=
            mkArray (base apInnerBags)
              (<[Z.to_nat iInnerBag := Some pSingleInnerBag]> (elems apInnerBags)) in
          let iInnerBag := size_t_wrap (iInnerBag + 1) in
          if cInnerBags =? iInnerBag then Some (Some apInnerBags, w)
          else GenerateInnerBags_loop fuel' fuelFree cSamples aWeights cInnerBags
                 apInnerBags iInnerBag w
      end
  end.

Definition GenerateInnerBags (fuel : nat) (cSamples : size_t)
    (aWeights : option (list FloatFast)) (cInnerBags : size_t) (w : World)
    : option (option (array (option InnerBag)) * World) :=
  let cInnerBagsAfterZero := if 0 =? cInnerBags then 1 else cInnerBags in
  match EbmMalloc cInnerBagsAfterZero w with
  | (None, w) => Some (None, w)
  | (Some p, w) =>
      let apInnerBags := mkArray p (replicate (Z.to_nat cInnerBagsAfterZero) None) in
      if 0 =? cInnerBags then
        match GenerateFlatInnerBag cSamples aWeights w with
        | (inl _, w) => Some (None, free (Some p) w)
        | (inr pSingleInnerBag, w) =>
            Some (Some (mkArray p (<[0%nat := Some pSingleInnerBag]> (elems apInnerBags))), w)
        end
      else
        GenerateInnerBags_loop fuel fuel cSamples aWeights cInnerBags apInnerBags 0 w
  end.

(** ** Reading a world *)

(** The next [k] allocations all succeed. *)
Definition script_ok (k : nat) (script : list bool) : bool :=
  forallb negb (take k script).

Definition mallocs_succeed (k : nat) (w : World) : bool :=
  script_ok k (oom w).

(** The generator after [n] draws below [cSamples]. *)
Fixpoint draws (n : nat) (cSamples : size_t) (r : RandomDeterministic)
    : RandomDeterministic :=
  match n with
  | O => r
  | S n' => draws n' cSamples (snd (NextFast r cSamples))
  end.

Definition sum_size_t (l : list size_t) : Z := foldr Z.add 0 l.

(** The occurrence counts one bootstrap construction draws from generator
    state [r], and the weights it derives from them. *)
Definition bootstrap_counts (cSamples : size_t) (r : RandomDeterministic)
    : list size_t :=
  fst (sample_loop (Z.to_nat cSamples) cSamples r
         (replicate (Z.to_nat cSamples) 0)).

Definition effective_weights (counts : list size_t) (aWeights : list FloatFast)
    : list FloatFast :=
  zip_with (fun c x => float_mul fmtFast (float_of_size_t fmtFast c) x)
           counts aWeights.

(** Releasing the bag of one slot, if it holds one, and of a run of slots
    in turn. *)
Definition release_slot (w : World) (slot : option InnerBag) : World :=
  match slot with
  | Some pInnerBag => InnerBag_Free pInnerBag w
  | None => w
  end.

Definition release_slots (slots : list (option InnerBag)) (w : World) : World :=
  fold_left release_slot slots w.

(** The heap blocks owned by the bags of a slot sequence. *)
Fixpoint slots_blocks (slots : list (option InnerBag)) : gset block :=
  match slots with
  | [] => ∅
  | Some b :: slots => bag_blocks b ∪ slots_blocks slots
  | None :: slots => slots_blocks slots
  end.

(** A slot sequence whose first slots hold [bags] and whose last [k] slots
    are still null. *)
Definition bags_slots (bags : list InnerBag) (k : nat) : list (option InnerBag) :=
  (Some <$> bags) ++ replicate k None.

(** Bag [b] is a bootstrap bag over [cSamples] samples and [aWeights]: some
    call of the bootstrap factory returned it. *)
Definition bootstrap_bag (cSamples : size_t) (aWeights : option (list FloatFast))
    (b : InnerBag) : Prop :=
  exists w w', GenerateSingleInnerBag cSamples aWeights w = (inr b, w').

(** Bag [b] was built between [w] and [w']: its three blocks are distinct,
    were not live in [w] and are all that [w'] adds to the heap; three
    allocations were made and all three succeeded. *)
Definition built (b : InnerBag) (w w' : World) : Prop :=
  mallocs_succeed 3 w = true /\ oom w' = drop 3 (oom w) /\
  bag_blocks b ## live w /\ live w' = bag_blocks b ∪ live w /\
  this b <> base (m_aCountOccurrences b) /\ this b <> base (m_aWeights b) /\
  base (m_aCountOccurrences b) <> base (m_aWeights b).

(** The occurrence counts of the [k]-th bag of a set whose construction
    starts from generator state [r]: every bag before it has made
    [cSamples] draws. *)
Definition nth_bag_counts (cSamples : size_t) (r : RandomDeterministic)
    (k : nat) : list size_t :=
  bootstrap_counts cSamples (draws (k * Z.to_nat cSamples) cSamples r).

(** The bags of [bags] own blocks of their own: three distinct blocks each,
    none of them in [L] nor owned by a bag earlier in the list. *)
Fixpoint bags_separate (L : gset block) (bags : list InnerBag) : Prop :=
  match bags with
  | [] => True
  | b :: bags =>
      bag_blocks b ## L /\
      this b <> base (m_aCountOccurrences b) /\
      this b <> base (m_aWeights b) /\
      base (m_aCountOccurrences b) <> base (m_aWeights b) /\
      bags_separate (bag_blocks b ∪ L) bags
  end.

(** The calls of the bootstrap factory that the loop of [GenerateInnerBags]
    makes one after the other, each from the world the one before left: at
    most [n] of them, stopping at the first that returns [nullptr]. The
    result is the bags built so far, whether all [n] were built, and the
    world after the last call made. *)
Fixpoint bootstrap_run (n : nat) (cSamples : size_t)
    (aWeights : option (list FloatFast)) (w : World)
    : list InnerBag * bool * World :=
  match n with
  | O => ([], true, w)
  | S n' =>
      match GenerateSingleInnerBag cSamples aWeights w with
      | (inl _, w) => ([], false, w)
      | (inr pSingleInnerBag, w) =>
          let '(bags, ok, w) := bootstrap_run n' cSamples aWeights w in
          (pSingleInnerBag :: bags, ok, w)
      end
  end.

(** Some sample was drawn at least once and has a finite external weight
    above zero. *)
Definition drawn_positive (counts : list size_t) (aWeights : list FloatFast)
    : Prop :=
  exists (i : nat) (c : size_t) (x : FloatFast),
    counts !! i = Some c /\ aWeights !! i = Some x /\
    0 < c /\ finite_positive x = true.


End InnerBag.

(** ** A reference instance of the collaborators

    A 64-bit linear congruential generator whose bounded draw reduces the
    high half of the state, and the plain left-to-right sum in double
    precision of single-precision weights, each widened to double first.
    The statements of this file are run on numbers with it, on heaps that
    start empty.

    A second instance sums exactly: the single-precision weights are added
    as integers, in units of the smallest single-precision number, and the
    sum is rounded to double precision once. It meets
    [AddPositiveFloatsSafeBig_safe]. *)

Module Reference.

Definition draw (r : Z) (n : size_t) : size_t * Z :=
  let r' := size_t_wrap (r * 6364136223846793005 + 1442695040888963407) in
  ((r' / 2 ^ 32) mod n, r').

Definition widen (x : FloatFast) : FloatBig :=
  SFldexp (prec binary64) (emax binary64) x 0.

Definition sum (cVals : size_t) (a : list FloatFast) : FloatBig :=
  fold_left (fun total x => SFadd (prec binary64) (emax binary64) total (widen x))
            (take (Z.to_nat cVals) a) float_zero.

Definition collaborators : Collaborators := {|
  fmtFast := binary32;
  fmtBig := binary64;
  RandomDeterministic := Z;
  NextFast := draw;
  AddPositiveFloatsSafeBig := sum
|}.

(** The world with an empty heap, the allocation script [script] and the
    generator in state [seed]. *)
Definition world (seed : Z) (script : list bool) : World (C := collaborators) :=
  mkWorld (C := collaborators) ∅ script seed.

Definition one : FloatFast := float_one binary32.

(** The largest finite single-precision number. *)
Definition max_float : FloatFast := S754_finite false 16777215 104.

(** A finite non-negative single-precision number in units of [2 ^ -149]. *)
Definition scaled (x : FloatFast) : Z :=
  match x with
  | S754_finite false m e => Z.pos m * 2 ^ (e + 149)
  | _ => 0
  end.

Definition exact_sum (cVals : size_t) (a : list FloatFast) : FloatBig :=
  let a := take (Z.to_nat cVals) a in
  if forallb (finite_nonneg binary32) a then
    binary_normalize (prec binary64) (emax binary64)
      (foldr Z.add 0 (scaled <$> a)) (-149) false
  else S754_nan.

Definition exact_collaborators : Collaborators := {|
  fmtFast := binary32;
  fmtBig := binary64;
  RandomDeterministic := Z;
  NextFast := draw;
  AddPositiveFloatsSafeBig := exact_sum
|}.

End Reference.

(** * Properties *)

Section Properties.

Context {C : Collaborators}.

(** *** Rounding an integer never loses its sign *)

Lemma digits2_pos_size (p : positive) : digits2_pos p = Pos.size p.
Proof. induction p as [p IH|p IH|]; simpl; congruence. Qed.

Lemma Zdigits2_log2 (m : Z) : 0 < m -> Zdigits2 m = Z.log2 m + 1.
Proof.
  destruct m as [|p|p]; try lia. intros _. simpl.
  destruct p as [p|p|]; simpl; rewrite ?digits2_pos_size; lia.
Qed.

Lemma shr_1_m (r : shr_record) :
  0 <= shr_m r -> shr_m (shr_1 r) = Z.div2 (shr_m r).
Proof.
  destruct r as [m r s]. simpl.
  destruct m as [|[p|p|]|p]; simpl; try reflexivity; lia.
Qed.

Lemma iter_shr_1_m (k : positive) (r : shr_record) :
  0 <= shr_m r -> shr_m (SpecFloat.iter_pos shr_1 k r) = Z.shiftr (shr_m r) (Z.pos k).
Proof.
  revert r. induction k as [k IH|k IH|]; intros r Hr; simpl SpecFloat.iter_pos.
  - assert (H1 : 0 <= shr_m (shr_1 r)).
    { rewrite shr_1_m, Z.div2_spec by assumption. now apply Z.shiftr_nonneg. }
    assert (H2 : 0 <= shr_m (SpecFloat.iter_pos shr_1 k (shr_1 r))).
    { rewrite IH by assumption. now apply Z.shiftr_nonneg. }
    rewrite IH, IH, shr_1_m, Z.div2_spec, !Z.shiftr_shiftr
      by (assumption || lia).
    f_equal. lia.
  - assert (H2 : 0 <= shr_m (SpecFloat.iter_pos shr_1 k r)).
    { rewrite IH by assumption. now apply Z.shiftr_nonneg. }
    rewrite IH, IH, !Z.shiftr_shiftr by (assumption || lia).
    f_equal. lia.
  - rewrite shr_1_m, Z.div2_spec by assumption. reflexivity.
Qed.

Lemma iter_xO_pow2 (d p : positive) :
  Z.pos (Pos.iter xO p d) = Z.pos p * 2 ^ Z.pos d.
Proof.
  induction d as [|d IH] using Pos.peano_ind.
  - simpl. lia.
  - rewrite Pos.iter_succ, Pos2Z.inj_xO, IH, Pos2Z.inj_succ, Z.pow_succ_r by lia.
    lia.
Qed.

Lemma round_nearest_even_bounds (m : Z) (l : location) :
  m <= round_nearest_even m l <= m + 1.
Proof. destruct l as [|[]]; simpl; try lia. destruct (Z.even m); lia. Qed.

Section Format.
Variables p_ e_ : Z.
Hypothesis Hprec : 1 <= p_.
Hypothesis Hemax : 2 <= e_.

Lemma shr_fexp_spec (m e : Z) (l : location) :
  0 < m ->
  let s := Z.max 0 (fexp p_ e_ (Zdigits2 m + e) - e) in
  shr_m (fst (shr_fexp p_ e_ m e l)) = Z.shiftr m s /\
  snd (shr_fexp p_ e_ m e l) = e + s.
Proof.
  intros Hm s. unfold shr_fexp, shr. subst s.
  assert (Hrec : shr_m (shr_record_of_loc m l) = m)
    by (destruct l as [|[]]; reflexivity).
  destruct (fexp p_ e_ (Zdigits2 m + e) - e) as [|k|k] eqn:E;
    simpl fst; simpl snd.
  - rewrite Hrec. split; [reflexivity | lia].
  - rewrite iter_shr_1_m by (rewrite Hrec; lia). rewrite Hrec.
    rewrite Z.max_r by lia. split; [reflexivity | lia].
  - rewrite Hrec. rewrite Z.max_l by lia. split; [reflexivity | lia].
Qed.

(** A positive mantissa whose exponent is in range rounds to a finite
    number of the same sign: neither to zero nor to an infinity. *)
Lemma binary_round_aux_finite (sx : bool) (mx ex : Z) (lx : location) :
  0 < mx -> emin p_ e_ <= ex -> ex <= e_ - p_ ->
  Z.log2 mx + ex + 2 <= e_ ->
  exists m e, binary_round_aux p_ e_ sx mx ex lx = S754_finite sx m e.
Proof.
  intros Hmx Hlo Hhi Hlog. unfold binary_round_aux.
  destruct (shr_fexp_spec mx ex lx Hmx) as [Hm1 He1].
  destruct (shr_fexp p_ e_ mx ex lx) as [r1 e1]. simpl in Hm1, He1.
  rewrite Zdigits2_log2 in He1, Hm1 by assumption.
  unfold fexp, emin in *.
  set (s1 := Z.max 0 (Z.max (Z.log2 mx + 1 + ex - p_) (3 - e_ - p_) - ex)) in *.
  assert (Hs1 : 0 <= s1 <= Z.log2 mx) by (pose proof (Z.log2_nonneg mx); lia).
  assert (Hm1pos : 0 < shr_m r1).
  { rewrite Hm1. apply Z.le_neq. split; [apply Z.shiftr_nonneg; lia|].
    intros Heq. symmetry in Heq. apply Z.shiftr_eq_0_iff in Heq. lia. }
  assert (Hlog1 : Z.log2 (shr_m r1) = Z.log2 mx - s1).
  { rewrite Hm1, Z.log2_shiftr by assumption. lia. }
  pose proof (round_nearest_even_bounds (shr_m r1) (loc_of_shr_record r1)) as Hrne.
  set (m2 := round_nearest_even (shr_m r1) (loc_of_shr_record r1)) in *.
  assert (Hm2 : 0 < m2) by lia.
  assert (Hlog2 : Z.log2 m2 <= Z.log2 (shr_m r1) + 1).
  { etransitivity; [apply Z.log2_le_mono with (b := Z.succ (shr_m r1)); lia|].
    apply Z.log2_succ_le. }
  destruct (shr_fexp_spec m2 e1 loc_Exact Hm2) as [Hm3 He3].
  destruct (shr_fexp p_ e_ m2 e1 loc_Exact) as [r3 e3]. simpl in Hm3, He3.
  rewrite Zdigits2_log2 in He3, Hm3 by assumption.
  unfold fexp, emin in *.
  set (s2 := Z.max 0 (Z.max (Z.log2 m2 + 1 + e1 - p_) (3 - e_ - p_) - e1)) in *.
  assert (Hs2 : 0 <= s2 <= Z.log2 m2) by (pose proof (Z.log2_nonneg m2); lia).
  assert (Hm3pos : 0 < shr_m r3).
  { rewrite Hm3. apply Z.le_neq. split; [apply Z.shiftr_nonneg; lia|].
    intros Heq. symmetry in Heq. apply Z.shiftr_eq_0_iff in Heq. lia. }
  destruct (shr_m r3) as [|m3|m3]; try lia.
  replace (e3 <=? e_ - p_) with true by (symmetry; apply Z.leb_le; lia).
  eauto.
Qed.

Lemma shl_align_spec (mx : positive) (ex ex' : Z) :
  let '(mz, ez) := shl_align mx ex ex' in
  ez = Z.min ex ex' /\ Z.pos mz = Z.pos mx * 2 ^ (ex - ez).
Proof.
  unfold shl_align. destruct (ex' - ex) as [|d|d] eqn:E.
  - split; [lia|]. rewrite Z.sub_diag. simpl. lia.
  - split; [lia|]. rewrite Z.sub_diag. simpl. lia.
  - split; [lia|]. rewrite iter_xO_pow2. f_equal. f_equal. lia.
Qed.

(** Converting a non-zero 64-bit unsigned integer gives a finite positive
    float as soon as the format reaches [2 ^ 64]. *)
Lemma binary_normalize_size_t_finite (n : Z) :
  p_ <= e_ -> 65 <= e_ -> 1 <= n < 2 ^ 64 ->
  exists m e, binary_normalize p_ e_ n 0 false = S754_finite false m e.
Proof.
  intros Hpe He65 Hn. destruct n as [|p|p]; try lia.
  unfold binary_normalize, binary_round.
  pose proof (shl_align_spec p 0 (fexp p_ e_ (Z.pos (digits2_pos p) + 0))) as Hal.
  destruct (shl_align p 0 (fexp p_ e_ (Z.pos (digits2_pos p) + 0))) as [mz ez].
  destruct Hal as [Hez Hmz].
  assert (Hlogp : Z.log2 (Z.pos p) < 64) by (apply Z.log2_lt_pow2; lia).
  assert (Hlogz : Z.log2 (Z.pos mz) = - ez + Z.log2 (Z.pos p)).
  { rewrite Hmz. replace (0 - ez) with (- ez) by lia.
    apply Z.log2_mul_pow2; lia. }
  apply binary_round_aux_finite; unfold fexp, emin in *; lia.
Qed.
Lemma shr_fexp_id (m e : Z) :
  fexp p_ e_ (Zdigits2 m + e) - e <= 0 ->
  shr_fexp p_ e_ m e loc_Exact = (Build_shr_record m false false, e).
Proof.
  intros Hs. unfold shr_fexp, shr.
  destruct (fexp p_ e_ (Zdigits2 m + e) - e) as [|k|k]; try reflexivity; lia.
Qed.

(** An integer that fits in the mantissa converts without rounding. *)
Lemma binary_normalize_exact (n : Z) :
  p_ <= e_ -> 0 < n < 2 ^ p_ ->
  exists m e, binary_normalize p_ e_ n 0 false = S754_finite false m e /\
    e <= 0 /\ Z.pos m = n * 2 ^ (- e).
Proof.
  intros Hpe Hn. destruct n as [|p|p]; try lia.
  unfold binary_normalize, binary_round.
  pose proof (shl_align_spec p 0 (fexp p_ e_ (Z.pos (digits2_pos p) + 0))) as Hal.
  destruct (shl_align p 0 (fexp p_ e_ (Z.pos (digits2_pos p) + 0))) as [mz ez].
  destruct Hal as [Hez Hmz].
  assert (Hlogp : Z.log2 (Z.pos p) < p_) by (apply Z.log2_lt_pow2; lia).
  pose proof (Z.log2_nonneg (Z.pos p)) as Hlog0.
  assert (Hlogz : Z.log2 (Z.pos mz) = - ez + Z.log2 (Z.pos p)).
  { rewrite Hmz. replace (0 - ez) with (- ez) by lia.
    apply Z.log2_mul_pow2; unfold fexp, emin in *; lia. }
  change (Z.pos (digits2_pos p)) with (Zdigits2 (Z.pos p)) in Hez.
  rewrite Zdigits2_log2 in Hez by lia.
  assert (Hid : fexp p_ e_ (Zdigits2 (Z.pos mz) + ez) - ez <= 0).
  { rewrite Zdigits2_log2 by lia. unfold fexp, emin in *. lia. }
  unfold binary_round_aux. rewrite (shr_fexp_id _ _ Hid).
  cbn [shr_m loc_of_shr_record round_nearest_even].
  rewrite (shr_fexp_id _ _ Hid). cbn [shr_m].
  replace (ez <=? e_ - p_) with true
    by (symmetry; apply Z.leb_le; unfold fexp, emin in *; lia).
  exists mz, ez. split_and!; [reflexivity | lia |].
  rewrite Hmz. now replace (0 - ez) with (- ez) by lia.
Qed.
End Format.

Lemma float_of_size_t_finite (f : binary_format) (n : size_t) :
  1 <= n <= SIZE_MAX ->
  exists m e, float_of_size_t f n = S754_finite false m e.
Proof.
  intros Hn. unfold float_of_size_t, SIZE_MAX in *.
  apply binary_normalize_size_t_finite; destruct f; simpl; lia.
Qed.

Lemma float_of_size_t_exact (f : binary_format) (n : size_t) :
  0 <= n < 2 ^ prec f -> float_is_integer (float_of_size_t f n) n.
Proof.
  intros Hn. unfold float_of_size_t.
  destruct (Z.eq_dec n 0) as [->|Hn0]; [reflexivity|].
  destruct (binary_normalize_exact (prec f) (emax f)) with (n := n)
    as (m & e & Heq & He & Hm).
  all: try (destruct f; simpl in *; lia).
  rewrite Heq. simpl. auto.
Qed.

Lemma float_one_exact (f : binary_format) : float_is_integer (float_one f) 1.
Proof. apply float_of_size_t_exact. destruct f; simpl; lia. Qed.

(** Once the guard is passed, the total is a number above zero. *)
Lemma invalid_total_false (total : spec_float) :
  invalid_total total = false ->
  isnan total = false /\ isinf total = false /\ gt_zero total = true.
Proof.
  unfold invalid_total, le_zero, gt_zero, SFleb, SFltb.
  destruct total as [s|s| |s m e]; simpl; try discriminate;
    destruct s; simpl; try discriminate; auto.
Qed.

Lemma invalid_total_float_of_size_t (f : binary_format) (n : size_t) :
  1 <= n <= SIZE_MAX -> invalid_total (float_of_size_t f n) = false.
Proof.
  intros Hn. destruct (float_of_size_t_finite f n Hn) as (m & e & ->).
  reflexivity.
Qed.

(** ** The heap *)

Lemma EbmMalloc_inv (cItems : size_t) (w w' : World) (r : option block) :
  EbmMalloc cItems w = (r, w') ->
  rng w' = rng w /\ oom w' = tail (oom w) /\
  match r with
  | None => head (oom w) = Some true /\ live w' = live w
  | Some p =>
      head (oom w) <> Some true /\ (p ∉ live w) /\ live w' = {[ p ]} ∪ live w
  end.
Proof.
  unfold EbmMalloc. intros H.
  destruct (oom w) as [|[] script] eqn:E; inversion H; subst; clear H; simpl;
    repeat split; try congruence; apply is_fresh.
Qed.

Lemma script_ok_S (k : nat) (script : list bool) :
  script_ok (S k) script = true <->
  head script <> Some true /\ script_ok k (tail script) = true.
Proof.
  unfold script_ok. destruct script as [|[] script]; simpl.
  - rewrite take_nil. simpl. intuition congruence.
  - intuition congruence.
  - intuition congruence.
Qed.

Lemma script_ok_fail (k : nat) (script : list bool) :
  head script = Some true -> script_ok (S k) script = false.
Proof. unfold script_ok. destruct script as [|[] script]; simpl; congruence. Qed.

Lemma script_ok_S_fail (k : nat) (script : list bool) :
  script_ok k (tail script) = false -> script_ok (S k) script = false.
Proof.
  unfold script_ok. destruct script as [|[] script]; simpl; try congruence.
  rewrite take_nil. discriminate.
Qed.

Lemma script_ok_le (j k : nat) (script : list bool) :
  (j <= k)%nat -> script_ok k script = true -> script_ok j script = true.
Proof.
  unfold script_ok. revert k script.
  induction j as [|j IH]; intros k script Hle H; [reflexivity|].
  destruct k as [|k]; [lia|]. destruct script as [|b script]; [reflexivity|].
  simpl in *. apply andb_true_iff in H as [-> H]. simpl.
  apply (IH k); [lia | assumption].
Qed.

Lemma script_ok_nil (k : nat) : script_ok k [] = true.
Proof. unfold script_ok. now rewrite take_nil. Qed.

Lemma tail_drop {A : Type} (n : nat) (l : list A) :
  tail (drop n l) = drop (S n) l.
Proof.
  revert l. induction n as [|n IH]; intros [|x l]; simpl; try reflexivity.
  apply IH.
Qed.
(** ** The two factories, outcome by outcome *)

Ltac malloc_cases H :=
  repeat match type of H with
  | context [EbmMalloc ?n ?w] =>
      let E := fresh "Hm" in
      let p := fresh "p" in
      let l1 := fresh "l" in
      let o1 := fresh "o" in
      let r1 := fresh "r" in
      destruct (EbmMalloc n w) as [[p|] [l1 o1 r1]] eqn:E;
      apply EbmMalloc_inv in E; cbn [live oom rng] in E;
      [destruct E as (-> & -> & ? & ? & ->) | destruct E as (-> & -> & ? & ->)]
  end.

Lemma live_restore1 (L : gset block) (p : block) :
  p ∉ L -> ({[ p ]} ∪ L) ∖ {[ p ]} = L.
Proof. set_solver. Qed.

Lemma live_restore2 (L : gset block) (p p0 : block) :
  p ∉ L -> p0 ∉ {[ p ]} ∪ L ->
  ({[ p0 ]} ∪ ({[ p ]} ∪ L)) ∖ {[ p0 ]} ∖ {[ p ]} = L.
Proof. set_solver. Qed.

Lemma live_restore3 (L : gset block) (p p0 p1 : block) :
  p ∉ L -> p0 ∉ {[ p ]} ∪ L -> p1 ∉ {[ p0 ]} ∪ ({[ p ]} ∪ L) ->
  ({[ p1 ]} ∪ ({[ p0 ]} ∪ ({[ p ]} ∪ L))) ∖ {[ p0 ]} ∖ {[ p1 ]} ∖ {[ p ]} = L.
Proof. set_solver. Qed.

Lemma fresh3 (L : gset block) (p p0 p1 : block) :
  p ∉ L -> p0 ∉ {[ p ]} ∪ L -> p1 ∉ {[ p0 ]} ∪ ({[ p ]} ∪ L) ->
  ({[ p; p0; p1 ]} : gset block) ## L /\
  {[ p1 ]} ∪ ({[ p0 ]} ∪ ({[ p ]} ∪ L)) = {[ p; p0; p1 ]} ∪ L /\
  p <> p0 /\ p <> p1 /\ p0 <> p1.
Proof. set_solver. Qed.

Lemma script_ok_3 (script : list bool) :
  head script <> Some true -> head (tail script) <> Some true ->
  head (tail (tail script)) <> Some true -> script_ok 3 script = true.
Proof.
  intros H1 H2 H3. rewrite !script_ok_S. repeat split; assumption || reflexivity.
Qed.

Lemma sample_loop_snd (n : nat) (cSamples : size_t) (r : RandomDeterministic)
    (a : list size_t) :
  snd (sample_loop n cSamples r a) = draws n cSamples r.
Proof.
  revert r a. induction n as [|n IH]; intros r a; simpl; [reflexivity|].
  destruct (NextFast r cSamples) as [i r']. simpl. apply IH.
Qed.

Lemma GenerateFlatInnerBag_inv (cSamples : size_t)
    (aWeights : option (list FloatFast)) (w w' : World)
    (r : failure + InnerBag) :
  GenerateFlatInnerBag cSamples aWeights w = (r, w') ->
  rng w' = rng w /\
  match r with
  | inl AllocationFailure => mallocs_succeed 3 w = false /\ live w' = live w
  | inl InvalidAggregateWeight =>
      mallocs_succeed 3 w = true /\ live w' = live w /\
      oom w' = drop 3 (oom w) /\
      exists a, aWeights = Some a /\
        invalid_total (AddPositiveFloatsSafeBig cSamples
                         (take (Z.to_nat cSamples) a)) = true
  | inr b =>
      built b w w' /\
      elems (m_aCountOccurrences b) = replicate (Z.to_nat cSamples) 1 /\
      match aWeights with
      | None =>
          elems (m_aWeights b) = replicate (Z.to_nat cSamples) (float_one fmtFast) /\
          m_weightTotal b = float_of_size_t fmtBig cSamples
      | Some a =>
          elems (m_aWeights b) = take (Z.to_nat cSamples) a /\
          m_weightTotal b =
            AddPositiveFloatsSafeBig cSamples (take (Z.to_nat cSamples) a) /\
          invalid_total (m_weightTotal b) = false
      end
  end.
Proof.
  unfold GenerateFlatInnerBag, mallocs_succeed, built, bag_blocks. intros H.
  malloc_cases H; unfold Free, free in H; cbn [live oom rng] in H.
  - destruct (fresh3 (live w) p p0 p1) as (? & ? & ? & ? & ?); try assumption.
    assert (script_ok 3 (oom w) = true) by now apply script_ok_3.
    assert (tail (tail (tail (oom w))) = drop 3 (oom w))
      by now rewrite <- !tail_drop.
    destruct aWeights as [a|].
    + destruct (invalid_total _) eqn:Hinv; injection H as <- <-;
        cbn [live oom rng this m_aCountOccurrences m_aWeights m_weightTotal base elems].
      * split_and!; try done; [now apply live_restore3 | eauto].
      * split_and!; done.
    + injection H as <- <-;
        cbn [live oom rng this m_aCountOccurrences m_aWeights m_weightTotal base elems].
      split_and!; done.
  - injection H as <- <-; cbn [live oom rng]. split_and!; try done.
    + do 2 apply script_ok_S_fail. now apply script_ok_fail.
    + now apply live_restore2.
  - injection H as <- <-; cbn [live oom rng]. split_and!; try done.
    + apply script_ok_S_fail. now apply script_ok_fail.
    + now apply live_restore1.
  - injection H as <- <-; cbn [live oom rng]. split_and!; try done.
    now apply script_ok_fail.
Qed.
Lemma GenerateSingleInnerBag_inv (cSamples : size_t)
    (aWeights : option (list FloatFast)) (w w' : World)
    (r : failure + InnerBag) :
  GenerateSingleInnerBag cSamples aWeights w = (r, w') ->
  match r with
  | inl AllocationFailure =>
      mallocs_succeed 3 w = false /\ live w' = live w /\ rng w' = rng w
  | inl InvalidAggregateWeight =>
      mallocs_succeed 3 w = true /\ live w' = live w /\
      oom w' = drop 3 (oom w) /\
      rng w' = draws (Z.to_nat cSamples) cSamples (rng w) /\
      exists a, aWeights = Some a /\
        invalid_total
          (AddPositiveFloatsSafeBig cSamples
             (effective_weights (bootstrap_counts cSamples (rng w)) a)) = true
  | inr b =>
      built b w w' /\
      rng w' = draws (Z.to_nat cSamples) cSamples (rng w) /\
      elems (m_aCountOccurrences b) = bootstrap_counts cSamples (rng w) /\
      match aWeights with
      | None =>
          elems (m_aWeights b) =
            map (float_of_size_t fmtFast) (elems (m_aCountOccurrences b)) /\
          m_weightTotal b = float_of_size_t fmtBig cSamples
      | Some a =>
          elems (m_aWeights b) =
            effective_weights (elems (m_aCountOccurrences b)) a /\
          m_weightTotal b =
            AddPositiveFloatsSafeBig cSamples (elems (m_aWeights b)) /\
          invalid_total (m_weightTotal b) = false
      end
  end.
Proof.
  unfold GenerateSingleInnerBag, mallocs_succeed, built, bag_blocks,
    bootstrap_counts, effective_weights.
  intros H.
  malloc_cases H; unfold Free, free in H; cbn [live oom rng] in H.
  - destruct (fresh3 (live w) p p0 p1) as (? & ? & ? & ? & ?); try assumption.
    assert (script_ok 3 (oom w) = true) by now apply script_ok_3.
    assert (tail (tail (tail (oom w))) = drop 3 (oom w))
      by now rewrite <- !tail_drop.
    pose proof (sample_loop_snd (Z.to_nat cSamples) cSamples (rng w)
                  (replicate (Z.to_nat cSamples) 0)) as Hsnd.
    destruct (sample_loop _ _ _ _) as [counts cpuRng].
    cbn [fst snd] in *. subst cpuRng.
    destruct aWeights as [a|].
    + destruct (invalid_total _) eqn:Hinv; injection H as <- <-;
        cbn [live oom rng this m_aCountOccurrences m_aWeights m_weightTotal base elems].
      * split_and!; try done; [now apply live_restore3 | eauto].
      * split_and!; done.
    + injection H as <- <-;
        cbn [live oom rng this m_aCountOccurrences m_aWeights m_weightTotal base elems].
      split_and!; done.
  - injection H as <- <-; cbn [live oom rng]. split_and!; try done.
    + do 2 apply script_ok_S_fail. now apply script_ok_fail.
    + now apply live_restore2.
  - injection H as <- <-; cbn [live oom rng]. split_and!; try done.
    + apply script_ok_S_fail. now apply script_ok_fail.
    + now apply live_restore1.
  - injection H as <- <-; cbn [live oom rng]. split_and!; try done.
    now apply script_ok_fail.
Qed.

(** ** The sampling loop *)

Section Sampling.

Hypothesis NextFast_range : NextFast_in_range.

Lemma sum_size_t_lookup (a : list size_t) (i : nat) (c : size_t) :
  Forall (fun c => 0 <= c) a -> a !! i = Some c -> 0 <= c <= sum_size_t a.
Proof.
  intros Ha. revert i. induction Ha as [|x a Hx Ha IH]; intros i Hi.
  - discriminate.
  - assert (0 <= sum_size_t a).
    { clear -Ha. induction Ha as [|y a Hy _ IH]; simpl; lia. }
    destruct i as [|i]; simpl in *.
    + injection Hi as ->. lia.
    + specialize (IH i Hi). lia.
Qed.

Lemma sum_size_t_alter (f : size_t -> size_t) (a : list size_t) (i : nat)
    (c : size_t) :
  a !! i = Some c -> sum_size_t (alter f i a) = sum_size_t a - c + f c.
Proof.
  revert i. induction a as [|x a IH]; intros i Hi; [discriminate|].
  destruct i as [|i]; simpl in *.
  - injection Hi as ->. lia.
  - specialize (IH i Hi). unfold alter in IH. lia.
Qed.

Lemma sum_size_t_replicate (n : nat) : sum_size_t (replicate n 0) = 0.
Proof. induction n as [|n IH]; simpl; [reflexivity | exact IH]. Qed.

Lemma sample_loop_counts (n : nat) (cSamples : size_t)
    (r : RandomDeterministic) (a : list size_t) :
  0 < cSamples -> length a = Z.to_nat cSamples ->
  Forall (fun c => 0 <= c) a -> sum_size_t a + Z.of_nat n <= SIZE_MAX ->
  length (fst (sample_loop n cSamples r a)) = length a /\
  Forall (fun c => 0 <= c) (fst (sample_loop n cSamples r a)) /\
  sum_size_t (fst (sample_loop n cSamples r a)) = sum_size_t a + Z.of_nat n.
Proof.
  intros Hc. revert r a.
  induction n as [|n IH]; intros r a Hlen Hpos Hsum; simpl sample_loop.
  - simpl. split_and!; [done | done | lia].
  - pose proof (NextFast_range r cSamples Hc) as Hi.
    destruct (NextFast r cSamples) as [i r']. cbn [fst] in Hi.
    destruct (lookup_lt_is_Some_2 a (Z.to_nat i)) as [c Hlk]; [lia|].
    pose proof (sum_size_t_lookup a (Z.to_nat i) c Hpos Hlk) as Hcb.
    assert (Hw : size_t_wrap (c + 1) = c + 1).
    { unfold size_t_wrap, SIZE_MAX in *. apply Z.mod_small. lia. }
    set (a' := alter (fun c => size_t_wrap (c + 1)) (Z.to_nat i) a).
    assert (Hsum' : sum_size_t a' = sum_size_t a + 1).
    { unfold a'. rewrite (sum_size_t_alter _ a (Z.to_nat i) c Hlk), Hw. lia. }
    destruct (IH r' a') as (IH1 & IH2 & IH3).
    + unfold a'. now rewrite length_alter.
    + unfold a'. apply Forall_alter; [done|].
      intros x Hx Hx0. assert (x = c) as -> by congruence. rewrite Hw. lia.
    + lia.
    + split_and!; [|done|lia].
      rewrite IH1. unfold a'. now rewrite length_alter.
Qed.

(** The counts of a bootstrap bag: one per sample, none negative, and as
    many occurrences in all as there are samples. *)
Lemma bootstrap_counts_sum (cSamples : size_t) (r : RandomDeterministic) :
  1 <= cSamples <= SIZE_MAX ->
  length (bootstrap_counts cSamples r) = Z.to_nat cSamples /\
  Forall (fun c => 0 <= c) (bootstrap_counts cSamples r) /\
  sum_size_t (bootstrap_counts cSamples r) = cSamples.
Proof.
  intros Hc. unfold bootstrap_counts.
  destruct (sample_loop_counts (Z.to_nat cSamples) cSamples r
              (replicate (Z.to_nat cSamples) 0)) as (H1 & H2 & H3).
  - lia.
  - apply length_replicate.
  - apply Forall_replicate. lia.
  - rewrite sum_size_t_replicate. lia.
  - rewrite H1, H3, length_replicate, sum_size_t_replicate. split_and!; [done|done|lia].
Qed.

End Sampling.

(** ** Releasing a bag set *)

Lemma release_slots_frame (slots : list (option InnerBag)) (w : World) :
  live (release_slots slots w) = live w ∖ slots_blocks slots /\
  oom (release_slots slots w) = oom w /\
  rng (release_slots slots w) = rng w.
Proof.
  unfold release_slots. revert w.
  induction slots as [|[b|] slots IH]; intros w; simpl.
  - split_and!; [set_solver | done | done].
  - destruct (IH (InnerBag_Free b w)) as (-> & -> & ->).
    unfold InnerBag_Free, Free, free, bag_blocks. cbn [live oom rng].
    split_and!; [set_solver | done | done].
  - apply IH.
Qed.

Lemma FreeInnerBags_loop_spec (fuel : nat) (n : size_t)
    (slots : list (option InnerBag)) (i : size_t) (w : World) :
  0 <= i < n -> n <= SIZE_MAX ->
  (Z.to_nat (n - i) <= fuel)%nat -> (Z.to_nat n <= length slots)%nat ->
  FreeInnerBags_loop fuel n slots i w =
    Some (release_slots (take (Z.to_nat (n - i)) (drop (Z.to_nat i) slots)) w).
Proof.
  intros Hi Hn. revert i w Hi.
  induction fuel as [|fuel IH]; intros i w Hi Hfuel Hlen; [lia|].
  simpl FreeInnerBags_loop.
  destruct (lookup_lt_is_Some_2 slots (Z.to_nat i)) as [slot Hslot]; [lia|].
  rewrite Hslot.
  assert (Hw : size_t_wrap (i + 1) = i + 1).
  { unfold size_t_wrap, SIZE_MAX in *. apply Z.mod_small. lia. }
  rewrite Hw.
  rewrite (drop_S slots slot (Z.to_nat i) Hslot).
  replace (Z.to_nat (n - i)) with (S (Z.to_nat (n - (i + 1)))) by lia.
  rewrite firstn_cons. unfold release_slots at 1. simpl fold_left.
  fold (release_slots (take (Z.to_nat (n - (i + 1)))
                         (drop (S (Z.to_nat i)) slots))
                      (release_slot w slot)).
  change (match slot with
          | Some pInnerBag => InnerBag_Free pInnerBag w
          | None => w
          end) with (release_slot w slot).
  destruct (Z.eqb_spec n (i + 1)) as [->|Hne].
  - replace (Z.to_nat (i + 1 - (i + 1))) with 0%nat by lia. reflexivity.
  - rewrite IH by lia.
    replace (Z.to_nat (i + 1)) with (S (Z.to_nat i)) by lia. reflexivity.
Qed.

Lemma FreeInnerBags_spec (fuel : nat) (cInnerBags : size_t)
    (ap : array (option InnerBag)) (w : World) :
  0 <= cInnerBags <= SIZE_MAX ->
  (Z.to_nat (Z.max cInnerBags 1) <= fuel)%nat ->
  (Z.to_nat (Z.max cInnerBags 1) <= length (elems ap))%nat ->
  FreeInnerBags fuel cInnerBags (Some ap) w =
    Some (free (Some (base ap))
            (release_slots (take (Z.to_nat (Z.max cInnerBags 1)) (elems ap)) w)).
Proof.
  intros Hc Hfuel Hlen. unfold FreeInnerBags.
  assert (Hmax : (if 0 =? cInnerBags then 1 else cInnerBags) = Z.max cInnerBags 1).
  { destruct (Z.eqb_spec 0 cInnerBags); lia. }
  rewrite Hmax.
  rewrite FreeInnerBags_loop_spec; unfold SIZE_MAX in *; try lia.
  rewrite Z.sub_0_r. reflexivity.
Qed.

(** ** Building a bag set *)

Lemma slots_blocks_app (l1 l2 : list (option InnerBag)) :
  slots_blocks (l1 ++ l2) = slots_blocks l1 ∪ slots_blocks l2.
Proof.
  induction l1 as [|[b|] l1 IH]; simpl; rewrite ?IH; set_solver.
Qed.

Lemma slots_blocks_null (k : nat) : slots_blocks (replicate k None) = ∅.
Proof. induction k as [|k IH]; simpl; [reflexivity | exact IH]. Qed.

Lemma bags_slots_insert (bags : list InnerBag) (k : nat) (b : InnerBag) :
  <[length bags := Some b]> (bags_slots bags (S k)) = bags_slots (bags ++ [b]) k.
Proof.
  unfold bags_slots. rewrite insert_app_r_alt by (rewrite length_fmap; lia).
  rewrite length_fmap, Nat.sub_diag, fmap_app, <- app_assoc. reflexivity.
Qed.

Lemma bags_slots_blocks_snoc (bags : list InnerBag) (k : nat) (b : InnerBag) :
  slots_blocks (bags_slots (bags ++ [b]) k) =
    bag_blocks b ∪ slots_blocks (bags_slots bags (S k)).
Proof.
  unfold bags_slots. rewrite fmap_app, !slots_blocks_app, !slots_blocks_null.
  simpl. set_solver.
Qed.

Lemma bags_slots_length (bags : list InnerBag) (k : nat) :
  length (bags_slots bags k) = (length bags + k)%nat.
Proof. unfold bags_slots. now rewrite length_app, length_fmap, length_replicate. Qed.

Lemma live_released (L L0 SB : gset block) (p : block) :
  L = SB ∪ ({[ p ]} ∪ L0) -> SB ## {[ p ]} ∪ L0 -> p ∉ L0 ->
  L ∖ SB ∖ {[ p ]} = L0.
Proof. set_solver. Qed.

Lemma live_extended (L L0 SB B : gset block) (p : block) :
  L = SB ∪ ({[ p ]} ∪ L0) -> SB ## {[ p ]} ∪ L0 -> B ## L ->
  B ∪ L = (B ∪ SB) ∪ ({[ p ]} ∪ L0) /\ B ∪ SB ## {[ p ]} ∪ L0.
Proof. set_solver. Qed.

Section Loop.

Variables (cSamples : size_t) (aWeights : option (list FloatFast)).
Variables (cInnerBags : size_t) (p : block) (L0 : gset block) (fuelFree : nat).
Hypothesis HcInnerBags : 1 <= cInnerBags <= SIZE_MAX.
Hypothesis HfuelFree : (Z.to_nat cInnerBags <= fuelFree)%nat.
Hypothesis Hp : p ∉ L0.

Lemma GenerateInnerBags_loop_spec (fuel : nat) (bags : list InnerBag)
    (i : size_t) (w : World) :
  0 <= i < cInnerBags -> length bags = Z.to_nat i ->
  (Z.to_nat (cInnerBags - i) <= fuel)%nat ->
  Forall (bootstrap_bag cSamples aWeights) bags ->
  live w = slots_blocks (bags_slots bags (Z.to_nat (cInnerBags - i)))
           ∪ ({[ p ]} ∪ L0) ->
  slots_blocks (bags_slots bags (Z.to_nat (cInnerBags - i))) ## {[ p ]} ∪ L0 ->
  exists r w',
    GenerateInnerBags_loop fuel fuelFree cSamples aWeights cInnerBags
      (mkArray p (bags_slots bags (Z.to_nat (cInnerBags - i)))) i w
    = Some (r, w') /\
    match r with
    | None =>
        live w' = L0 /\
        exists wa e wb,
          GenerateSingleInnerBag cSamples aWeights wa = (inl e, wb)
    | Some ap =>
        base ap = p /\
        exists bags',
          elems ap = Some <$> bags' /\
          length bags' = Z.to_nat cInnerBags /\
          Forall (bootstrap_bag cSamples aWeights) bags' /\
          live w' = slots_blocks (elems ap) ∪ ({[ p ]} ∪ L0) /\
          slots_blocks (elems ap) ## {[ p ]} ∪ L0
    end.
Proof.
  revert bags i w.
  induction fuel as [|fuel IH]; intros bags i w Hi Hlen Hfuel Hbags Hlive Hdisj;
    [lia|].
  cbn [GenerateInnerBags_loop].
  destruct (GenerateSingleInnerBag cSamples aWeights w) as [[e|b] w1] eqn:E.
  - (* the bag cannot be built: everything is released *)
    assert (Hlive1 : live w1 = live w).
    { apply GenerateSingleInnerBag_inv in E. destruct e; tauto. }
    rewrite FreeInnerBags_spec; cbn [base elems];
      rewrite ?bags_slots_length; try lia.
    replace (Z.to_nat (Z.max cInnerBags 1)) with (Z.to_nat cInnerBags) by lia.
    rewrite take_ge by (rewrite bags_slots_length; lia).
    eexists _, _. split; [reflexivity|].
    unfold free. cbn [live].
    destruct (release_slots_frame
                (bags_slots bags (Z.to_nat (cInnerBags - i))) w1) as (-> & _).
    rewrite Hlive1. split; [now apply live_released | eauto].
  - (* the bag is stored in slot [i] *)
    assert (Hb : bootstrap_bag cSamples aWeights b) by (eexists _, _; exact E).
    apply GenerateSingleInnerBag_inv in E. destruct E as (Hbuilt & _).
    destruct Hbuilt as (_ & _ & Hfresh & Hlive1 & _).
    cbn [base elems].
    assert (Hw : size_t_wrap (i + 1) = i + 1).
    { unfold size_t_wrap, SIZE_MAX in *. apply Z.mod_small. lia. }
    rewrite Hw.
    replace (Z.to_nat (cInnerBags - i))
      with (S (Z.to_nat (cInnerBags - (i + 1)))) in * by lia.
    rewrite <- Hlen, bags_slots_insert.
    destruct (live_extended (live w) L0 _ (bag_blocks b) p Hlive Hdisj Hfresh)
      as (Hlive' & Hdisj').
    rewrite <- bags_slots_blocks_snoc in Hlive', Hdisj'.
    rewrite <- Hlive1 in Hlive'.
    assert (Hbags' : Forall (bootstrap_bag cSamples aWeights) (bags ++ [b])).
    { apply Forall_app. split; [assumption|]. now constructor. }
    destruct (Z.eqb_spec cInnerBags (i + 1)) as [Heq|Hne].
    + eexists _, _. split; [reflexivity|]. cbn [base elems].
      split; [reflexivity|]. exists (bags ++ [b]).
      replace (Z.to_nat (cInnerBags - (i + 1))) with 0%nat in * by lia.
      unfold bags_slots in *. rewrite app_nil_r in *.
      split_and!; try done. rewrite length_app. simpl. lia.
    + apply IH; try done; try lia. rewrite length_app. simpl. lia.
Qed.

End Loop.

(** ** The constructions of a bag set, one after the other *)

Lemma release_slots_app (l1 l2 : list (option InnerBag)) (w : World) :
  release_slots (l1 ++ l2) w = release_slots l2 (release_slots l1 w).
Proof. unfold release_slots. apply fold_left_app. Qed.

Lemma release_slots_null (k : nat) (w : World) :
  release_slots (replicate k None) w = w.
Proof. induction k as [|k IH]; [reflexivity | exact IH]. Qed.

Lemma release_bags_slots (bags : list InnerBag) (k : nat) (w : World) :
  release_slots (bags_slots bags k) w = release_slots (Some <$> bags) w.
Proof. unfold bags_slots. now rewrite release_slots_app, release_slots_null. Qed.

(** A run that built all its bags has [n] of them; a run that stopped has
    fewer, and the call that follows them is the one that failed. *)
Lemma bootstrap_run_inv (n : nat) (cSamples : size_t)
    (aWeights : option (list FloatFast)) (w w' : World)
    (bags : list InnerBag) (ok : bool) :
  bootstrap_run n cSamples aWeights w = (bags, ok, w') ->
  Forall (bootstrap_bag cSamples aWeights) bags /\
  if ok then length bags = n
  else (length bags < n)%nat /\
       exists wk e,
         bootstrap_run (length bags) cSamples aWeights w = (bags, true, wk) /\
         GenerateSingleInnerBag cSamples aWeights wk = (inl e, w').
Proof.
  revert w w' bags ok. induction n as [|n IH]; intros w w' bags ok H; simpl in H.
  - injection H as <- <- <-. split; [constructor | reflexivity].
  - destruct (GenerateSingleInnerBag cSamples aWeights w) as [[e|b] w1] eqn:E.
    + injection H as <- <- <-. split; [constructor|]. simpl.
      split; [lia|]. exists w, e. split; [reflexivity | exact E].
    + destruct (bootstrap_run n cSamples aWeights w1) as [[bs ok1] w2] eqn:E1.
      injection H as <- <- <-.
      destruct (IH _ _ _ _ E1) as (Hall & Hok).
      split.
      * constructor; [|exact Hall]. eexists _, _. exact E.
      * destruct ok1; simpl.
        -- lia.
        -- destruct Hok as (Hlt & wk & e & Hrun & Hfail).
           split; [lia|]. exists wk, e. rewrite E, Hrun.
           split; [reflexivity | exact Hfail].
Qed.

(** The loop of [GenerateInnerBags] from slot [i] on, the slots before it
    holding [pre]: it is the run of the remaining constructions, followed by
    the release of every bag placed when one of them fails. *)
Lemma GenerateInnerBags_loop_run (cSamples : size_t)
    (aWeights : option (list FloatFast)) (cInnerBags : size_t) (p : block)
    (fuelFree fuel : nat) (pre : list InnerBag) (i : size_t) (w : World) :
  1 <= cInnerBags <= SIZE_MAX -> (Z.to_nat cInnerBags <= fuelFree)%nat ->
  0 <= i < cInnerBags -> length pre = Z.to_nat i ->
  (Z.to_nat (cInnerBags - i) <= fuel)%nat ->
  GenerateInnerBags_loop fuel fuelFree cSamples aWeights cInnerBags
    (mkArray p (bags_slots pre (Z.to_nat (cInnerBags - i)))) i w =
  match bootstrap_run (Z.to_nat (cInnerBags - i)) cSamples aWeights w with
  | (bags, true, w') => Some (Some (mkArray p (Some <$> (pre ++ bags))), w')
  | (bags, false, w') =>
      Some (None, free (Some p) (release_slots (Some <$> (pre ++ bags)) w'))
  end.
Proof.
  intros Hc HfuelFree. revert pre i w.
  induction fuel as [|fuel IH]; intros pre i w Hi Hlen Hfuel; [lia|].
  cbn [GenerateInnerBags_loop].
  replace (Z.to_nat (cInnerBags - i))
    with (S (Z.to_nat (cInnerBags - (i + 1)))) by lia.
  cbn [bootstrap_run].
  destruct (GenerateSingleInnerBag cSamples aWeights w) as [[e|b] w1] eqn:E.
  - rewrite FreeInnerBags_spec; cbn [base elems];
      rewrite ?bags_slots_length; try lia.
    rewrite take_ge by (rewrite bags_slots_length; lia).
    now rewrite release_bags_slots, app_nil_r.
  - cbn [base elems].
    assert (Hw : size_t_wrap (i + 1) = i + 1).
    { unfold size_t_wrap, SIZE_MAX in *. apply Z.mod_small. lia. }
    rewrite Hw, <- Hlen, bags_slots_insert.
    destruct (Z.eqb_spec cInnerBags (i + 1)) as [Heq|Hne].
    + replace (Z.to_nat (cInnerBags - (i + 1))) with 0%nat by lia.
      cbn [bootstrap_run]. unfold bags_slots. now rewrite app_nil_r.
    + rewrite IH; try lia; [|rewrite length_app; simpl; lia].
      destruct (bootstrap_run _ cSamples aWeights w1) as [[bs [|]] w2];
        now rewrite <- app_assoc.
Qed.

Lemma GenerateInnerBags_run (fuel : nat) (cSamples : size_t)
    (aWeights : option (list FloatFast)) (cInnerBags : size_t) (w w1 : World)
    (p : block) :
  1 <= cInnerBags <= SIZE_MAX -> (Z.to_nat cInnerBags <= fuel)%nat ->
  EbmMalloc cInnerBags w = (Some p, w1) ->
  GenerateInnerBags fuel cSamples aWeights cInnerBags w =
    match bootstrap_run (Z.to_nat cInnerBags) cSamples aWeights w1 with
    | (bags, true, w') => Some (Some (mkArray p (Some <$> bags)), w')
    | (bags, false, w') =>
        Some (None, free (Some p) (release_slots (Some <$> bags) w'))
    end /\
  exists r w',
    GenerateInnerBags fuel cSamples aWeights cInnerBags w = Some (r, w') /\
    (p ∉ live w) /\
    match r with
    | None => live w' = live w
    | Some ap =>
        slots_blocks (elems ap) ## {[ p ]} ∪ live w /\
        live w' = slots_blocks (elems ap) ∪ ({[ p ]} ∪ live w)
    end.
Proof.
  intros Hc Hfuel E1. unfold GenerateInnerBags.
  destruct (Z.eqb_spec 0 cInnerBags) as [|_]; [lia|]. rewrite E1.
  apply EbmMalloc_inv in E1 as (_ & _ & _ & Hp & Hl1).
  change (replicate (Z.to_nat cInnerBags) None)
    with (bags_slots [] (Z.to_nat cInnerBags)).
  split.
  - pose proof (GenerateInnerBags_loop_run cSamples aWeights cInnerBags p
                  fuel fuel [] 0 w1 Hc Hfuel) as Hrun.
    rewrite Z.sub_0_r in Hrun. apply Hrun; simpl; lia.
  - destruct (GenerateInnerBags_loop_spec cSamples aWeights cInnerBags p
                (live w) fuel Hc Hfuel Hp fuel [] 0 w1)
      as (r & w' & Hrun & Hr); try done; try lia.
    + rewrite Z.sub_0_r. unfold bags_slots. simpl.
      rewrite slots_blocks_null, Hl1. set_solver.
    + rewrite Z.sub_0_r. unfold bags_slots. simpl.
      rewrite slots_blocks_null. set_solver.
    + rewrite Z.sub_0_r in Hrun.
      exists r, w'. split; [exact Hrun|]. split; [exact Hp|].
      destruct r as [ap|]; [|tauto].
      destruct Hr as (_ & bags & _ & _ & _ & ? & ?). done.
Qed.

(** ** Weights that are zero or finite and above zero *)

Section Range.
Variables p_ e_ : Z.
Hypothesis Hprec : 1 <= p_.
Hypothesis Hemax : 2 <= e_.

(** Rounding a positive mantissa whose value is not below the smallest
    number of the format gives an infinity or a finite number of the same
    sign, within the range of the format and not below the power of two
    under the value. *)
Lemma binary_round_aux_range (sx : bool) (mx ex : Z) (lx : location) :
  0 < mx -> emin p_ e_ <= Z.log2 mx + ex ->
  binary_round_aux p_ e_ sx mx ex lx = S754_infinity sx \/
  exists m e,
    binary_round_aux p_ e_ sx mx ex lx = S754_finite sx m e /\
    emin p_ e_ <= e /\ Z.log2 (Z.pos m) + e < e_ /\
    Z.log2 mx + ex <= Z.log2 (Z.pos m) + e.
Proof.
  intros Hmx Hlo. unfold binary_round_aux.
  destruct (shr_fexp_spec p_ e_ mx ex lx Hmx) as [Hm1 He1].
  destruct (shr_fexp p_ e_ mx ex lx) as [r1 e1]. simpl in Hm1, He1.
  rewrite Zdigits2_log2 in He1, Hm1 by assumption.
  unfold fexp, emin in *.
  set (s1 := Z.max 0 (Z.max (Z.log2 mx + 1 + ex - p_) (3 - e_ - p_) - ex)) in *.
  assert (Hs1 : 0 <= s1 <= Z.log2 mx) by (pose proof (Z.log2_nonneg mx); lia).
  assert (Hm1pos : 0 < shr_m r1).
  { rewrite Hm1. apply Z.le_neq. split; [apply Z.shiftr_nonneg; lia|].
    intros Heq. symmetry in Heq. apply Z.shiftr_eq_0_iff in Heq. lia. }
  assert (Hlog1 : Z.log2 (shr_m r1) = Z.log2 mx - s1).
  { rewrite Hm1, Z.log2_shiftr by assumption. lia. }
  pose proof (round_nearest_even_bounds (shr_m r1) (loc_of_shr_record r1)) as Hrne.
  set (m2 := round_nearest_even (shr_m r1) (loc_of_shr_record r1)) in *.
  assert (Hm2 : 0 < m2) by lia.
  assert (Hlog2 : Z.log2 (shr_m r1) <= Z.log2 m2) by (apply Z.log2_le_mono; lia).
  destruct (shr_fexp_spec p_ e_ m2 e1 loc_Exact Hm2) as [Hm3 He3].
  destruct (shr_fexp p_ e_ m2 e1 loc_Exact) as [r3 e3]. simpl in Hm3, He3.
  rewrite Zdigits2_log2 in He3, Hm3 by assumption.
  unfold fexp, emin in *.
  set (s2 := Z.max 0 (Z.max (Z.log2 m2 + 1 + e1 - p_) (3 - e_ - p_) - e1)) in *.
  assert (Hs2 : 0 <= s2 <= Z.log2 m2) by (pose proof (Z.log2_nonneg m2); lia).
  assert (Hm3pos : 0 < shr_m r3).
  { rewrite Hm3. apply Z.le_neq. split; [apply Z.shiftr_nonneg; lia|].
    intros Heq. symmetry in Heq. apply Z.shiftr_eq_0_iff in Heq. lia. }
  assert (Hlog3 : Z.log2 (shr_m r3) = Z.log2 m2 - s2).
  { rewrite Hm3, Z.log2_shiftr by assumption. lia. }
  destruct (shr_m r3) as [|m3|m3]; try lia.
  destruct (Z.leb_spec e3 (e_ - p_)) as [Hle|Hgt]; [right | now left].
  exists m3, e3. split; [reflexivity|]. lia.
Qed.

(** A positive integer scaled by a power of two of the format converts to a
    finite positive number when it is far enough below the overflow
    threshold. *)
Lemma binary_normalize_finite (n e : Z) :
  0 < n -> emin p_ e_ <= e -> e <= e_ - p_ -> Z.log2 n + e + 2 <= e_ ->
  exists m e', binary_normalize p_ e_ n e false = S754_finite false m e'.
Proof.
  intros Hn Hlo Hhi Hlog. destruct n as [|p|p]; try lia.
  unfold binary_normalize, binary_round.
  pose proof (shl_align_spec p e (fexp p_ e_ (Z.pos (digits2_pos p) + e))) as Hal.
  destruct (shl_align p e (fexp p_ e_ (Z.pos (digits2_pos p) + e))) as [mz ez].
  destruct Hal as [Hez Hmz].
  assert (Hlogz : Z.log2 (Z.pos mz) = e - ez + Z.log2 (Z.pos p)).
  { rewrite Hmz. apply Z.log2_mul_pow2; lia. }
  apply binary_round_aux_finite; unfold fexp, emin in *; lia.
Qed.

End Range.

Lemma format_bounds (f : binary_format) :
  1 <= prec f /\ 2 <= emax f /\ SpecFloat.emin (prec f) (emax f) <= 0.
Proof. unfold SpecFloat.emin. destruct f; simpl; lia. Qed.

(** A converted count of at least one is a finite number of at least one. *)
Lemma float_of_size_t_range (f : binary_format) (n : size_t) :
  1 <= n <= SIZE_MAX ->
  exists m e, float_of_size_t f n = S754_finite false m e /\
              0 <= Z.log2 (Z.pos m) + e.
Proof.
  intros Hn. destruct (float_of_size_t_finite f n Hn) as (m & e & Heq).
  exists m, e. split; [exact Heq|].
  destruct (format_bounds f) as (Hp & He & Hmin).
  unfold float_of_size_t, binary_normalize, binary_round in Heq.
  destruct n as [|p|p]; try lia.
  pose proof (shl_align_spec p 0
                (fexp (prec f) (emax f) (Z.pos (digits2_pos p) + 0))) as Hal.
  destruct (shl_align p 0 (fexp (prec f) (emax f) (Z.pos (digits2_pos p) + 0)))
    as [mz ez].
  destruct Hal as [Hez Hmz].
  pose proof (Z.log2_nonneg (Z.pos p)) as Hlog0.
  assert (Hlogz : Z.log2 (Z.pos mz) = - ez + Z.log2 (Z.pos p)).
  { rewrite Hmz. replace (0 - ez) with (- ez) by lia.
    apply Z.log2_mul_pow2; lia. }
  destruct (binary_round_aux_range (prec f) (emax f) Hp He false (Z.pos mz) ez
              loc_Exact) as [Hinf | (m' & e' & Heq' & _ & _ & Hlog)]; try lia.
  - rewrite Hinf in Heq. discriminate.
  - rewrite Heq' in Heq. injection Heq as <- <-. lia.
Qed.

(** A count of at least one times a finite weight above zero: the product
    overflows to an infinity, or it is again a finite weight above zero. It
    never underflows to zero. *)
Lemma float_mul_finite_positive (f : binary_format) (c : size_t)
    (x : spec_float) :
  1 <= c <= SIZE_MAX -> finite_nonneg f x = true -> finite_positive x = true ->
  float_mul f (float_of_size_t f c) x = S754_infinity false \/
  finite_nonneg f (float_mul f (float_of_size_t f c) x) = true /\
  finite_positive (float_mul f (float_of_size_t f c) x) = true.
Proof.
  intros Hc Hx Hpos.
  destruct (float_of_size_t_range f c Hc) as (mc & ec & -> & Hlc).
  destruct (format_bounds f) as (Hp & He & Hmin).
  destruct x as [s|s| |[] mx ex]; try discriminate.
  simpl in Hx. apply andb_true_iff in Hx as [Hlo Hhi].
  apply Z.leb_le in Hlo. apply Z.ltb_lt in Hhi.
  unfold float_mul, SFmul. cbn [xorb].
  pose proof (Z.log2_nonneg (Z.pos mx)) as Hlx.
  pose proof (Z.log2_mul_below (Z.pos mc) (Z.pos mx)) as Hmul.
  destruct (binary_round_aux_range (prec f) (emax f) Hp He false
              (Z.pos (mc * mx)) (ec + ex) loc_Exact)
    as [-> | (m & e & -> & Hlo' & Hhi' & _)]; try lia.
  - rewrite Pos2Z.inj_mul. lia.
  - now left.
  - right. simpl. split; [|reflexivity].
    apply andb_true_iff. split; [now apply Z.leb_le | now apply Z.ltb_lt].
Qed.

Lemma float_mul_by_zero (f : binary_format) (c : size_t) (x : spec_float) :
  0 <= c <= SIZE_MAX -> finite_nonneg f x = true ->
  c = 0 \/ finite_positive x = false ->
  exists s, float_mul f (float_of_size_t f c) x = S754_zero s.
Proof.
  intros Hc Hx Hz. unfold float_mul.
  destruct (Z.eq_dec c 0) as [->|Hc0].
  - change (float_of_size_t f 0) with (S754_zero false).
    destruct x as [s|s| |[] mx ex]; try discriminate; simpl; eauto.
  - destruct Hz as [|Hz]; [lia|].
    destruct (float_of_size_t_finite f c) as (mc & ec & ->); [lia|].
    destruct x as [s|s| |[] mx ex]; try discriminate; simpl; eauto.
Qed.

(** The weight [count * x] of a sample whose external weight [x] is zero or
    finite and above zero, when the product does not overflow: it is zero or
    finite and above zero, the latter exactly when the sample was drawn and
    [x] is above zero. *)
Lemma effective_weight_cases (f : binary_format) (c : size_t) (x : spec_float) :
  0 <= c <= SIZE_MAX -> finite_nonneg f x = true ->
  isinf (float_mul f (float_of_size_t f c) x) = false ->
  finite_nonneg f (float_mul f (float_of_size_t f c) x) = true /\
  (finite_positive (float_mul f (float_of_size_t f c) x) = true <->
   0 < c /\ finite_positive x = true).
Proof.
  intros Hc Hx Hinf.
  destruct (Z_lt_le_dec 0 c) as [Hpos|Hzero];
    [destruct (finite_positive x) eqn:Hfp|].
  - destruct (float_mul_finite_positive f c x) as [Heq | (H1 & H2)];
      [lia | assumption | assumption | |].
    + rewrite Heq in Hinf. discriminate.
    + split; [exact H1|]. split; [intros _; split; [lia | reflexivity]|].
      intros _. exact H2.
  - destruct (float_mul_by_zero f c x) as (s & ->); auto.
    split; [reflexivity|]. simpl. split; [discriminate | intros [_ [=]]].
  - destruct (float_mul_by_zero f c x) as (s & ->); auto; [left; lia|].
    split; [reflexivity|]. simpl. split; [discriminate | lia].
Qed.

Lemma effective_weights_cases (counts : list size_t) (a : list FloatFast) :
  Forall (fun c => 0 <= c <= SIZE_MAX) counts ->
  Forall (fun x => finite_nonneg fmtFast x = true) a ->
  Forall (fun y => isinf y = false) (effective_weights counts a) ->
  Forall (fun y => finite_nonneg fmtFast y = true) (effective_weights counts a) /\
  (Exists (fun y => finite_positive y = true) (effective_weights counts a) <->
   drawn_positive counts a).
Proof.
  intros Hcounts Ha Hinf. unfold effective_weights in *.
  rewrite Forall_lookup in Hcounts. rewrite Forall_lookup in Ha.
  rewrite Forall_lookup in Hinf. split.
  - apply Forall_lookup. intros i y Hy.
    pose proof (Hinf i y Hy) as Hfin.
    apply lookup_zip_with_Some in Hy as (c & x & -> & Hc & Hx).
    now apply effective_weight_cases; eauto.
  - rewrite Exists_exists. unfold drawn_positive. split.
    + intros (y & Hin & Hy). apply list_elem_of_lookup in Hin as (i & Hi).
      pose proof (Hinf i y Hi) as Hfin.
      apply lookup_zip_with_Some in Hi as (c & x & -> & Hc & Hx).
      apply effective_weight_cases in Hy; eauto.
      exists i, c, x. tauto.
    + intros (i & c & x & Hc & Hx & Hpos & Hfp).
      assert (Hi : zip_with (fun c x => float_mul fmtFast (float_of_size_t fmtFast c) x)
                     counts a !! i
                   = Some (float_mul fmtFast (float_of_size_t fmtFast c) x)).
      { apply lookup_zip_with_Some. eauto. }
      eexists. split; [eapply list_elem_of_lookup_2; exact Hi|].
      apply effective_weight_cases; eauto.
Qed.

(** A total that is a finite number passes the guard exactly when it is
    above zero. *)
Lemma invalid_total_iff (total : spec_float) :
  isnan total = false -> isinf total = false ->
  (invalid_total total = false <-> gt_zero total = true).
Proof.
  unfold invalid_total, le_zero, gt_zero, SFleb, SFltb.
  destruct total as [s|s| |s m e]; simpl; try discriminate;
    destruct s; simpl; intuition congruence.
Qed.

Lemma weighted_flat_returns_iff (cSamples : size_t)
    (a : list FloatFast) (w : World) :
  mallocs_succeed 3 w = true ->
  ((exists b w', GenerateFlatInnerBag cSamples (Some a) w = (inr b, w')) <->
   invalid_total
     (AddPositiveFloatsSafeBig cSamples (take (Z.to_nat cSamples) a)) = false).
Proof.
  intros Hm.
  destruct (GenerateFlatInnerBag cSamples (Some a) w) as [[e|b] w'] eqn:E;
    apply GenerateFlatInnerBag_inv in E as (_ & E).
  - destruct e; [destruct E; congruence|].
    destruct E as (_ & _ & _ & a0 & [= <-] & Hinv).
    split; [intros (b & w2 & [=]) | congruence].
  - destruct E as (_ & _ & _ & Ht & Hinv). rewrite Ht in Hinv.
    split; [intros _; exact Hinv | eauto].
Qed.

Lemma weighted_bootstrap_returns_iff (cSamples : size_t)
    (a : list FloatFast) (w : World) :
  mallocs_succeed 3 w = true ->
  ((exists b w', GenerateSingleInnerBag cSamples (Some a) w = (inr b, w')) <->
   invalid_total
     (AddPositiveFloatsSafeBig cSamples
        (effective_weights (bootstrap_counts cSamples (rng w)) a)) = false).
Proof.
  intros Hm.
  destruct (GenerateSingleInnerBag cSamples (Some a) w) as [[e|b] w'] eqn:E;
    apply GenerateSingleInnerBag_inv in E.
  - destruct e; [destruct E; congruence|].
    destruct E as (_ & _ & _ & _ & a0 & [= <-] & Hinv).
    split; [intros (b & w2 & [=]) | congruence].
  - destruct E as (_ & _ & Hc & Hw & Ht & Hinv). rewrite Ht, Hw, Hc in Hinv.
    split; [intros _; exact Hinv | eauto].
Qed.

(** * The claims *)

Lemma GenerateFlatInnerBag_contents (cSamples : size_t)
    (aWeights : option (list FloatFast)) (w1 w1' w2 w2' : World)
    (b1 b2 : InnerBag) :
  GenerateFlatInnerBag cSamples aWeights w1 = (inr b1, w1') ->
  GenerateFlatInnerBag cSamples aWeights w2 = (inr b2, w2') ->
  elems (m_aCountOccurrences b1) = elems (m_aCountOccurrences b2) /\
  elems (m_aWeights b1) = elems (m_aWeights b2) /\
  m_weightTotal b1 = m_weightTotal b2.
Proof.
  intros H1 H2.
  apply GenerateFlatInnerBag_inv in H1 as (_ & _ & Hc1 & Hw1).
  apply GenerateFlatInnerBag_inv in H2 as (_ & _ & Hc2 & Hw2).
  destruct aWeights as [a|].
  - destruct Hw1 as (-> & -> & _), Hw2 as (-> & -> & _). now rewrite Hc1, Hc2.
  - destruct Hw1 as (-> & ->), Hw2 as (-> & ->). now rewrite Hc1, Hc2.
Qed.

(** C1. Asked for zero bags, the construction allocates a slot sequence of
    one slot and calls the flat factory once, with the same [cSamples] and
    [aWeights]. When that allocation and the flat factory both succeed, it
    returns that sequence, of exactly one slot, and the slot holds the bag
    the flat factory built; this bag has the same occurrence counts, the
    same weights and the same total as the bag of any direct call of the
    flat factory on these inputs, whatever the heap of that call. When the
    slot sequence cannot be allocated no set is returned, and when the flat
    factory fails the slot sequence is released and no set is returned; in
    both cases the heap is as it was. *)
Theorem GenerateInnerBags_zero_is_flat (fuel : nat) (cSamples : size_t)
    (aWeights : option (list FloatFast)) (w : World) :
  (forall w1,
     EbmMalloc 1 w = (None, w1) ->
     GenerateInnerBags fuel cSamples aWeights 0 w = Some (None, w1) /\
     live w1 = live w) /\
  (forall p w1 e w2,
     EbmMalloc 1 w = (Some p, w1) ->
     GenerateFlatInnerBag cSamples aWeights w1 = (inl e, w2) ->
     GenerateInnerBags fuel cSamples aWeights 0 w
       = Some (None, free (Some p) w2) /\
     live (free (Some p) w2) = live w) /\
  (forall p w1 b w2,
     EbmMalloc 1 w = (Some p, w1) ->
     GenerateFlatInnerBag cSamples aWeights w1 = (inr b, w2) ->
     GenerateInnerBags fuel cSamples aWeights 0 w
       = Some (Some (mkArray p [Some b]), w2) /\
     forall w3 w3' b3,
       GenerateFlatInnerBag cSamples aWeights w3 = (inr b3, w3') ->
       elems (m_aCountOccurrences b) = elems (m_aCountOccurrences b3) /\
       elems (m_aWeights b) = elems (m_aWeights b3) /\
       m_weightTotal b = m_weightTotal b3).
Proof.
  unfold GenerateInnerBags. change (0 =? 0) with true. cbn iota.
  split_and!.
  - intros w1 E1. rewrite E1. split; [reflexivity|].
    now apply EbmMalloc_inv in E1 as (_ & _ & _ & ->).
  - intros p w1 e w2 E1 E2. rewrite E1, E2. split; [reflexivity|].
    cbn [free live].
    apply EbmMalloc_inv in E1 as (_ & _ & _ & Hp & Hl1).
    apply GenerateFlatInnerBag_inv in E2 as (_ & E2).
    assert (Hl2 : live w2 = live w1) by (destruct e; tauto).
    rewrite Hl2, Hl1. now apply live_restore1.
  - intros p w1 b w2 E1 E2. rewrite E1, E2. split; [reflexivity|].
    intros w3 w3' b3 E3.
    exact (GenerateFlatInnerBag_contents _ _ _ _ _ _ _ _ E2 E3).
Qed.

(** C2. With a generator that draws below its bound, a bootstrap bag built
    without external weights over [cSamples >= 1] samples has one count per
    sample, the counts add up to [cSamples], every weight is its count
    converted to the fast precision and the total is [cSamples] converted to
    the big precision. The conversions are exact while [cSamples] fits in
    the mantissa of the format. *)
Theorem GenerateSingleInnerBag_unweighted (cSamples : size_t) (w w' : World)
    (b : InnerBag) :
  NextFast_in_range -> 1 <= cSamples <= SIZE_MAX ->
  GenerateSingleInnerBag cSamples None w = (inr b, w') ->
  length (elems (m_aCountOccurrences b)) = Z.to_nat cSamples /\
  sum_size_t (elems (m_aCountOccurrences b)) = cSamples /\
  elems (m_aWeights b) =
    map (float_of_size_t fmtFast) (elems (m_aCountOccurrences b)) /\
  m_weightTotal b = float_of_size_t fmtBig cSamples /\
  (cSamples < 2 ^ prec fmtBig -> float_is_integer (m_weightTotal b) cSamples) /\
  (cSamples < 2 ^ prec fmtFast ->
   Forall2 float_is_integer (elems (m_aWeights b))
           (elems (m_aCountOccurrences b))).
Proof.
  intros Hrange Hc H.
  apply GenerateSingleInnerBag_inv in H as (_ & _ & Hcounts & Hw & Ht).
  destruct (bootstrap_counts_sum Hrange cSamples (rng w) Hc)
    as (Hlen & Hpos & Hsum).
  rewrite <- Hcounts in Hlen, Hpos, Hsum.
  split_and!; try done.
  - intros Hfit. rewrite Ht. apply float_of_size_t_exact. lia.
  - intros Hfit. rewrite Hw. apply Forall2_fmap_l, Forall_Forall2_diag.
    apply Forall_lookup_2. intros i c Hi.
    apply float_of_size_t_exact.
    pose proof (sum_size_t_lookup _ _ _ Hpos Hi). lia.
Qed.


(** C3. Asked for [cInnerBags >= 1] bags and given fuel for [cInnerBags]
    iterations, the construction allocates the slot sequence and then calls
    the bootstrap factory once per slot, each call starting from the world
    the call before left ([bootstrap_run]).
    - When the slot sequence cannot be allocated, no set is returned and the
      heap is as it was.
    - When all [cInnerBags] calls return a bag, the set is returned: it has
      [cInnerBags] slots, slot [k] holds the bag of call [k], and the heap
      has grown by the slot sequence and the blocks of these bags.
    - When a call fails after [k < cInnerBags] bags were built, no set is
      returned: the [k] bags already placed are released, then the slot
      sequence, and the heap is as it was before the call.
    A set with an empty slot is never returned. *)
Theorem GenerateInnerBags_all_or_nothing (fuel : nat) (cSamples : size_t)
    (aWeights : option (list FloatFast)) (cInnerBags : size_t) (w : World) :
  1 <= cInnerBags <= SIZE_MAX -> (Z.to_nat cInnerBags <= fuel)%nat ->
  (forall w1,
     EbmMalloc cInnerBags w = (None, w1) ->
     GenerateInnerBags fuel cSamples aWeights cInnerBags w = Some (None, w1) /\
     live w1 = live w) /\
  (forall p w1 bags w2,
     EbmMalloc cInnerBags w = (Some p, w1) ->
     bootstrap_run (Z.to_nat cInnerBags) cSamples aWeights w1
       = (bags, true, w2) ->
     GenerateInnerBags fuel cSamples aWeights cInnerBags w
       = Some (Some (mkArray p (Some <$> bags)), w2) /\
     length bags = Z.to_nat cInnerBags /\
     Forall (bootstrap_bag cSamples aWeights) bags /\
     (p ∉ live w) /\
     slots_blocks (Some <$> bags) ## {[ p ]} ∪ live w /\
     live w2 = slots_blocks (Some <$> bags) ∪ ({[ p ]} ∪ live w)) /\
  (forall p w1 bags w2,
     EbmMalloc cInnerBags w = (Some p, w1) ->
     bootstrap_run (Z.to_nat cInnerBags) cSamples aWeights w1
       = (bags, false, w2) ->
     (length bags < Z.to_nat cInnerBags)%nat /\
     (exists wk e,
        bootstrap_run (length bags) cSamples aWeights w1 = (bags, true, wk) /\
        GenerateSingleInnerBag cSamples aWeights wk = (inl e, w2)) /\
     GenerateInnerBags fuel cSamples aWeights cInnerBags w
       = Some (None, free (Some p) (release_slots (Some <$> bags) w2)) /\
     live (free (Some p) (release_slots (Some <$> bags) w2)) = live w).
Proof.
  intros Hc Hfuel. split_and!.
  - intros w1 E1. unfold GenerateInnerBags.
    destruct (Z.eqb_spec 0 cInnerBags) as [|_]; [lia|]. rewrite E1.
    split; [reflexivity|]. now apply EbmMalloc_inv in E1 as (_ & _ & _ & ->).
  - intros p w1 bags w2 E1 E2.
    destruct (GenerateInnerBags_run fuel cSamples aWeights cInnerBags w w1 p
                Hc Hfuel E1) as (Hrun & r & w' & Hrun' & Hp & Hr).
    rewrite E2 in Hrun. rewrite Hrun in Hrun'. injection Hrun' as <- <-.
    cbn [elems] in Hr. apply bootstrap_run_inv in E2 as (Hall & Hlen).
    split_and!; tauto.
  - intros p w1 bags w2 E1 E2.
    destruct (GenerateInnerBags_run fuel cSamples aWeights cInnerBags w w1 p
                Hc Hfuel E1) as (Hrun & r & w' & Hrun' & Hp & Hr).
    rewrite E2 in Hrun. rewrite Hrun in Hrun'. injection Hrun' as <- <-.
    apply bootstrap_run_inv in E2 as (Hall & Hlen & Hk).
    split_and!; done.
Qed.

(** C5. Whatever the factory and whether or not external weights are given,
    the total of a bag it returns for [cSamples >= 1] is not a NaN, is not
    infinite and is above zero. *)
Theorem m_weightTotal_valid (cSamples : size_t)
    (aWeights : option (list FloatFast)) (w w' : World) (b : InnerBag) :
  1 <= cSamples <= SIZE_MAX ->
  GenerateSingleInnerBag cSamples aWeights w = (inr b, w') \/
  GenerateFlatInnerBag cSamples aWeights w = (inr b, w') ->
  isnan (m_weightTotal b) = false /\
  isinf (m_weightTotal b) = false /\
  gt_zero (m_weightTotal b) = true.
Proof.
  intros Hc [H|H]; apply invalid_total_false.
  - apply GenerateSingleInnerBag_inv in H as (_ & _ & _ & H).
    destruct aWeights as [a|]; [tauto|]. destruct H as (_ & ->).
    now apply invalid_total_float_of_size_t.
  - apply GenerateFlatInnerBag_inv in H as (_ & _ & _ & H).
    destruct aWeights as [a|]; [tauto|]. destruct H as (_ & ->).
    now apply invalid_total_float_of_size_t.
Qed.

(** C6. A flat bag counts every sample once. Without external weights every
    weight is the float [1] and the total is [cSamples] converted to the big
    precision, exactly so while [cSamples] fits in its mantissa; with
    external weights, weight [i] is external weight [i] for every sample
    [i]. Such a bag is returned whenever the three allocations succeed and,
    with external weights, their safe sum passes the check of the total. *)
Theorem GenerateFlatInnerBag_flat (cSamples : size_t)
    (aWeights : option (list FloatFast)) (w : World) :
  (forall w' b,
     GenerateFlatInnerBag cSamples aWeights w = (inr b, w') ->
     elems (m_aCountOccurrences b) = replicate (Z.to_nat cSamples) 1 /\
     match aWeights with
     | None =>
         elems (m_aWeights b) = replicate (Z.to_nat cSamples) (float_one fmtFast) /\
         float_is_integer (float_one fmtFast) 1 /\
         m_weightTotal b = float_of_size_t fmtBig cSamples /\
         (0 <= cSamples < 2 ^ prec fmtBig ->
          float_is_integer (m_weightTotal b) cSamples)
     | Some a =>
         elems (m_aWeights b) = take (Z.to_nat cSamples) a /\
         forall i : nat,
           (i < Z.to_nat cSamples)%nat -> elems (m_aWeights b) !! i = a !! i
     end) /\
  (mallocs_succeed 3 w = true ->
   match aWeights with
   | None => True
   | Some a =>
       invalid_total
         (AddPositiveFloatsSafeBig cSamples (take (Z.to_nat cSamples) a)) = false
   end ->
   exists b w', GenerateFlatInnerBag cSamples aWeights w = (inr b, w')).
Proof.
  split.
  - intros w' b H. apply GenerateFlatInnerBag_inv in H as (_ & _ & Hcounts & H).
    split; [exact Hcounts|]. destruct aWeights as [a|].
    + destruct H as (-> & _). split; [reflexivity|].
      intros i Hi. now apply lookup_take_lt.
    + destruct H as (-> & ->). split_and!; try done.
      * apply float_one_exact.
      * apply float_of_size_t_exact.
  - intros Hm Hvalid.
    destruct (GenerateFlatInnerBag cSamples aWeights w) as [[e|b] w'] eqn:E;
      [|eauto].
    apply GenerateFlatInnerBag_inv in E as (_ & E). destruct e.
    + destruct E; congruence.
    + destruct E as (_ & _ & _ & a & -> & Hinv). congruence.
Qed.

(** C7. Two bootstrap constructions over the same [cSamples] that start from
    the same generator state return the same occurrence counts and leave the
    generator in the same state, whatever the heaps and the external weights
    of the two runs. *)
Theorem GenerateSingleInnerBag_deterministic (cSamples : size_t)
    (aWeights1 aWeights2 : option (list FloatFast)) (w1 w1' w2 w2' : World)
    (b1 b2 : InnerBag) :
  rng w1 = rng w2 ->
  GenerateSingleInnerBag cSamples aWeights1 w1 = (inr b1, w1') ->
  GenerateSingleInnerBag cSamples aWeights2 w2 = (inr b2, w2') ->
  elems (m_aCountOccurrences b1) = elems (m_aCountOccurrences b2) /\
  rng w1' = rng w2'.
Proof.
  intros Hrng H1 H2.
  apply GenerateSingleInnerBag_inv in H1 as (_ & -> & -> & _).
  apply GenerateSingleInnerBag_inv in H2 as (_ & -> & -> & _).
  now rewrite Hrng.
Qed.


(** C8. The bulk release leaves the world as it is when there is no slot
    sequence. Given a slot sequence of at least [max cInnerBags 1] slots it
    returns after that many iterations, having released the bag of each
    non-null slot among the first [max cInnerBags 1] and then the slot
    sequence itself: for [cInnerBags = 0] it scans one slot, as for
    [cInnerBags = 1]. The heap loses the blocks of the bags of these slots
    and the block of the sequence, and nothing else. *)
Theorem FreeInnerBags_releases (fuel : nat) (cInnerBags : size_t) (w : World) :
  FreeInnerBags fuel cInnerBags None w = Some w /\
  forall ap : array (option InnerBag),
    0 <= cInnerBags <= SIZE_MAX ->
    (Z.to_nat (Z.max cInnerBags 1) <= fuel)%nat ->
    (Z.to_nat (Z.max cInnerBags 1) <= length (elems ap))%nat ->
    let scanned := take (Z.to_nat (Z.max cInnerBags 1)) (elems ap) in
    FreeInnerBags fuel cInnerBags (Some ap) w =
      Some (free (Some (base ap)) (release_slots scanned w)) /\
    (cInnerBags = 0 ->
     FreeInnerBags fuel 0 (Some ap) w =
       Some (free (Some (base ap))
               (release_slot w (default None (head (elems ap)))))) /\
    forall w',
      FreeInnerBags fuel cInnerBags (Some ap) w = Some w' ->
      live w' = live w ∖ slots_blocks scanned ∖ {[ base ap ]} /\
      oom w' = oom w /\ rng w' = rng w.
Proof.
  split; [reflexivity|]. intros ap Hc Hfuel Hlen scanned.
  pose proof (FreeInnerBags_spec fuel cInnerBags ap w Hc Hfuel Hlen) as Hrun.
  fold scanned in Hrun. split_and!.
  - exact Hrun.
  - intros ->. rewrite Hrun. unfold scanned.
    destruct (elems ap) as [|slot slots]; [simpl in Hlen; lia|]. reflexivity.
  - intros w' Hw'. rewrite Hrun in Hw'. injection Hw' as <-.
    destruct (release_slots_frame scanned w) as (Hl & Ho & Hr).
    unfold free. cbn [live oom rng]. now rewrite Hl.
Qed.

(** C10. A bootstrap construction that fails leaves the heap as it was. When
    it fails on the total of the weights, the generator has been advanced by
    the [cSamples] draws of the sampling loop all the same; when it fails on
    an allocation, the generator has not been touched. *)
Theorem GenerateSingleInnerBag_failure_effects (cSamples : size_t)
    (aWeights : option (list FloatFast)) (w w' : World) (e : failure) :
  GenerateSingleInnerBag cSamples aWeights w = (inl e, w') ->
  live w' = live w /\
  match e with
  | InvalidAggregateWeight =>
      rng w' = draws (Z.to_nat cSamples) cSamples (rng w)
  | AllocationFailure => rng w' = rng w
  end.
Proof.
  intros H. apply GenerateSingleInnerBag_inv in H. destruct e; tauto.
Qed.

(** C4, amended. When its three allocations succeed, a factory given
    external weights fails exactly when the safe sum of the effective
    weights is a NaN, infinite or at most zero: the sum of
    [count * weight] for the bootstrap factory, the sum of the weights for
    the flat one. When it then fails, it is for this reason, and the heap is
    as it was before the call: the two arrays and the bag are released. *)
Theorem factories_fail_iff_invalid_total (cSamples : size_t)
    (a : list FloatFast) (w : World) :
  mallocs_succeed 3 w = true ->
  ((exists e, fst (GenerateSingleInnerBag cSamples (Some a) w) = inl e) <->
   invalid_total
     (AddPositiveFloatsSafeBig cSamples
        (effective_weights (bootstrap_counts cSamples (rng w)) a)) = true) /\
  ((exists e, fst (GenerateFlatInnerBag cSamples (Some a) w) = inl e) <->
   invalid_total
     (AddPositiveFloatsSafeBig cSamples (take (Z.to_nat cSamples) a)) = true) /\
  (forall e w', GenerateSingleInnerBag cSamples (Some a) w = (inl e, w') ->
                e = InvalidAggregateWeight /\ live w' = live w) /\
  (forall e w', GenerateFlatInnerBag cSamples (Some a) w = (inl e, w') ->
                e = InvalidAggregateWeight /\ live w' = live w).
Proof.
  intros Hm. split_and!.
  - destruct (GenerateSingleInnerBag cSamples (Some a) w) as [[e|b] w'] eqn:E;
      apply GenerateSingleInnerBag_inv in E; cbn [fst].
    + destruct e; [destruct E; congruence|].
      destruct E as (_ & _ & _ & _ & a0 & [= <-] & Hinv).
      split; [intros _; exact Hinv | eauto].
    + destruct E as (_ & _ & Hc & Hw & Ht & Hinv).
      rewrite Ht, Hw, Hc in Hinv.
      split; [intros [e [=]] | congruence].
  - destruct (GenerateFlatInnerBag cSamples (Some a) w) as [[e|b] w'] eqn:E;
      apply GenerateFlatInnerBag_inv in E as (_ & E); cbn [fst].
    + destruct e; [destruct E; congruence|].
      destruct E as (_ & _ & _ & a0 & [= <-] & Hinv).
      split; [intros _; exact Hinv | eauto].
    + destruct E as (_ & _ & Hw & Ht & Hinv). rewrite Ht in Hinv.
      split; [intros [e [=]] | congruence].
  - intros e w' E. apply GenerateSingleInnerBag_inv in E.
    destruct e; [destruct E; congruence | tauto].
  - intros e w' E. apply GenerateFlatInnerBag_inv in E as (_ & E).
    destruct e; [destruct E; congruence | tauto].
Qed.

(** C9, amended. External weights that are zero or finite and above zero,
    one per sample, given to a factory whose three allocations succeed, with
    a generator that draws below its bound and a summation that meets its
    contract.
    - The flat factory returns a bag exactly when at least one weight is
      above zero, whatever the number of zero weights next to it.
    - The bootstrap factory, when no product [count * weight] overflows the
      fast precision, returns a bag exactly when at least one sample that
      was drawn has a weight above zero: whether it does depends on the
      draws.
    - The total of a returned bag is neither NaN nor infinite and is above
      zero. *)
Theorem factories_succeed_on_positive_weights (cSamples : size_t)
    (a : list FloatFast) (w : World) :
  NextFast_in_range -> AddPositiveFloatsSafeBig_safe ->
  1 <= cSamples <= SIZE_MAX -> length a = Z.to_nat cSamples ->
  Forall (fun x => finite_nonneg fmtFast x = true) a ->
  mallocs_succeed 3 w = true ->
  ((exists b w', GenerateFlatInnerBag cSamples (Some a) w = (inr b, w')) <->
   Exists (fun x => finite_positive x = true) a) /\
  (Forall (fun y => isinf y = false)
     (effective_weights (bootstrap_counts cSamples (rng w)) a) ->
   ((exists b w', GenerateSingleInnerBag cSamples (Some a) w = (inr b, w')) <->
    drawn_positive (bootstrap_counts cSamples (rng w)) a)) /\
  (forall b w',
     GenerateFlatInnerBag cSamples (Some a) w = (inr b, w') \/
     GenerateSingleInnerBag cSamples (Some a) w = (inr b, w') ->
     isnan (m_weightTotal b) = false /\ isinf (m_weightTotal b) = false /\
     gt_zero (m_weightTotal b) = true).
Proof.
  intros Hrange Hsafe Hc Hlen Ha Hm. split_and!.
  - rewrite (weighted_flat_returns_iff cSamples a w Hm).
    rewrite take_ge by lia.
    destruct (Hsafe cSamples a) as (Hnan & Hinf & Hgt); try done; [lia|].
    now rewrite (invalid_total_iff _ Hnan Hinf).
  - intros Hfin.
    rewrite (weighted_bootstrap_returns_iff cSamples a w Hm).
    destruct (bootstrap_counts_sum Hrange cSamples (rng w) Hc)
      as (Hclen & Hcpos & Hcsum).
    destruct (effective_weights_cases (bootstrap_counts cSamples (rng w)) a)
      as (Hall & Hex); try done.
    { apply Forall_lookup_2. intros i c Hi.
      pose proof (sum_size_t_lookup _ _ _ Hcpos Hi). lia. }
    destruct (Hsafe cSamples
                (effective_weights (bootstrap_counts cSamples (rng w)) a))
      as (Hnan & Hinf & Hgt); try done; [lia| |].
    { unfold effective_weights. rewrite length_zip_with. lia. }
    now rewrite (invalid_total_iff _ Hnan Hinf), Hgt.
  - intros b w' [H|H]; apply invalid_total_false.
    + now apply GenerateFlatInnerBag_inv in H as (_ & _ & _ & _ & _ & H).
    + now apply GenerateSingleInnerBag_inv in H as (_ & _ & _ & _ & _ & H).
Qed.

(** * Further properties of the factories *)

Lemma live_freed3 (L : gset block) (p p0 p1 : block) :
  ({[ p; p0; p1 ]} : gset block) ## L ->
  ({[ p; p0; p1 ]} ∪ L) ∖ {[ p0 ]} ∖ {[ p1 ]} ∖ {[ p ]} = L.
Proof. set_solver. Qed.

Lemma not_in_live3 (L : gset block) (p p0 p1 : block) :
  ({[ p; p0; p1 ]} : gset block) ## L -> (p ∉ L) /\ (p0 ∉ L) /\ (p1 ∉ L).
Proof. set_solver. Qed.

Lemma factory_built (cSamples : size_t) (aWeights : option (list FloatFast))
    (w w' : World) (b : InnerBag) :
  GenerateSingleInnerBag cSamples aWeights w = (inr b, w') \/
  GenerateFlatInnerBag cSamples aWeights w = (inr b, w') ->
  built b w w'.
Proof.
  intros [H|H].
  - now apply GenerateSingleInnerBag_inv in H as (H & _).
  - now apply GenerateFlatInnerBag_inv in H as (_ & H & _).
Qed.

(** X1. A bootstrap bag built with [cSamples] external weights, by a
    generator that draws below its bound: one count per sample, each between
    [0] and [cSamples], adding up to [cSamples]; one weight per sample, the
    product in the fast precision of the converted count and the external
    weight; and the total is the safe sum of the bag's own weights. *)
Theorem GenerateSingleInnerBag_weighted (cSamples : size_t)
    (a : list FloatFast) (w w' : World) (b : InnerBag) :
  NextFast_in_range -> 1 <= cSamples <= SIZE_MAX ->
  length a = Z.to_nat cSamples ->
  GenerateSingleInnerBag cSamples (Some a) w = (inr b, w') ->
  length (elems (m_aCountOccurrences b)) = Z.to_nat cSamples /\
  sum_size_t (elems (m_aCountOccurrences b)) = cSamples /\
  Forall (fun c => 0 <= c <= cSamples) (elems (m_aCountOccurrences b)) /\
  length (elems (m_aWeights b)) = Z.to_nat cSamples /\
  (forall (i : nat) (c : size_t) (x : FloatFast),
     elems (m_aCountOccurrences b) !! i = Some c -> a !! i = Some x ->
     elems (m_aWeights b) !! i =
       Some (float_mul fmtFast (float_of_size_t fmtFast c) x)) /\
  m_weightTotal b = AddPositiveFloatsSafeBig cSamples (elems (m_aWeights b)).
Proof.
  intros Hrange Hc Hlen H.
  apply GenerateSingleInnerBag_inv in H as (_ & _ & Hcounts & Hw & Ht & _).
  destruct (bootstrap_counts_sum Hrange cSamples (rng w) Hc)
    as (Hlenc & Hpos & Hsum).
  rewrite <- Hcounts in Hlenc, Hpos, Hsum.
  split_and!; try done.
  - apply Forall_lookup_2. intros i c Hi.
    pose proof (sum_size_t_lookup _ _ _ Hpos Hi). lia.
  - rewrite Hw. unfold effective_weights.
    rewrite length_zip_with, Hlenc, Hlen. lia.
  - intros i c x Hi Hx. rewrite Hw. unfold effective_weights.
    rewrite lookup_zip_with, Hi. simpl. rewrite Hx. reflexivity.
Qed.


(** X3. A bag returned by either factory owns three blocks of its own: the
    struct and the two arrays are pairwise distinct, none of them was live
    before the call, the heap has grown by exactly these three, and the call
    made exactly three allocations. *)
Theorem factory_bag_owns_fresh_blocks (cSamples : size_t)
    (aWeights : option (list FloatFast)) (w w' : World) (b : InnerBag) :
  GenerateSingleInnerBag cSamples aWeights w = (inr b, w') \/
  GenerateFlatInnerBag cSamples aWeights w = (inr b, w') ->
  (this b ∉ live w) /\
  (base (m_aCountOccurrences b) ∉ live w) /\
  (base (m_aWeights b) ∉ live w) /\
  this b <> base (m_aCountOccurrences b) /\
  this b <> base (m_aWeights b) /\
  base (m_aCountOccurrences b) <> base (m_aWeights b) /\
  live w' =
    {[ this b; base (m_aCountOccurrences b); base (m_aWeights b) ]} ∪ live w /\
  oom w' = drop 3 (oom w).
Proof.
  intros H. apply factory_built in H.
  destruct H as (_ & Hoom & Hdisj & Hlive & H1 & H2 & H3).
  unfold bag_blocks in *.
  destruct (not_in_live3 _ _ _ _ Hdisj) as (? & ? & ?).
  split_and!; done.
Qed.

(** X4. Building a bag with either factory and then releasing it with
    [InnerBag::Free] gives back the heap of before the construction; the
    release touches neither the generator nor the allocation script. *)
Theorem InnerBag_Free_restores_heap (cSamples : size_t)
    (aWeights : option (list FloatFast)) (w w' : World) (b : InnerBag) :
  GenerateSingleInnerBag cSamples aWeights w = (inr b, w') \/
  GenerateFlatInnerBag cSamples aWeights w = (inr b, w') ->
  live (InnerBag_Free b w') = live w /\
  rng (InnerBag_Free b w') = rng w' /\
  oom (InnerBag_Free b w') = oom w'.
Proof.
  intros H. apply factory_built in H.
  destruct H as (_ & _ & Hdisj & Hlive & _).
  unfold InnerBag_Free, Free, free, bag_blocks in *. cbn [live oom rng].
  split_and!; try done. rewrite Hlive. now apply live_freed3.
Qed.

(** X5. In a bootstrap bag built without external weights, by a generator
    that draws below its bound, the weight of a sample is [+0] exactly when
    the sample was never drawn, and a finite number above zero otherwise:
    no weight is negative, infinite or a NaN. *)
Theorem unweighted_weight_zero_iff_undrawn (cSamples : size_t) (w w' : World)
    (b : InnerBag) :
  NextFast_in_range -> 1 <= cSamples <= SIZE_MAX ->
  GenerateSingleInnerBag cSamples None w = (inr b, w') ->
  Forall2 (fun (x : FloatFast) (c : size_t) =>
             (c = 0 /\ x = float_zero) \/
             (0 < c /\ exists m e, x = S754_finite false m e))
          (elems (m_aWeights b)) (elems (m_aCountOccurrences b)).
Proof.
  intros Hrange Hc H.
  apply GenerateSingleInnerBag_inv in H as (_ & _ & Hcounts & Hw & _).
  destruct (bootstrap_counts_sum Hrange cSamples (rng w) Hc)
    as (_ & Hpos & Hsum).
  rewrite <- Hcounts in Hpos, Hsum.
  rewrite Hw. apply Forall2_fmap_l, Forall_Forall2_diag.
  apply Forall_lookup_2. intros i c Hi.
  pose proof (sum_size_t_lookup _ _ _ Hpos Hi) as Hb.
  destruct (Z.eq_dec c 0) as [->|Hne].
  - left. split; reflexivity.
  - right. split; [lia|]. apply float_of_size_t_finite. lia.
Qed.

(** X6. The flat construction makes no draw: whether it returns a bag or
    fails, [GenerateFlatInnerBag] leaves the generator as it found it, and
    so does [GenerateInnerBags] asked for zero bags. *)
Theorem flat_construction_makes_no_draw (fuel : nat) (cSamples : size_t)
    (aWeights : option (list FloatFast)) (w : World) :
  rng (snd (GenerateFlatInnerBag cSamples aWeights w)) = rng w /\
  exists r w',
    GenerateInnerBags fuel cSamples aWeights 0 w = Some (r, w') /\
    rng w' = rng w.
Proof.
  split.
  - destruct (GenerateFlatInnerBag cSamples aWeights w) as [r w'] eqn:E.
    now apply GenerateFlatInnerBag_inv in E as (E & _).
  - unfold GenerateInnerBags. change (0 =? 0) with true. cbn iota.
    destruct (EbmMalloc 1 w) as [[p|] w1] eqn:E1;
      apply EbmMalloc_inv in E1 as (Hr1 & _).
    + destruct (GenerateFlatInnerBag cSamples aWeights w1) as [[e|b] w2] eqn:E2;
        apply GenerateFlatInnerBag_inv in E2 as (Hr2 & _);
        eexists _, _; (split; [reflexivity|]).
      * unfold free. cbn [rng]. congruence.
      * congruence.
    + eexists _, _. split; [reflexivity | exact Hr1].
Qed.

(** X7. When one of the first three allocations of the call fails, either
    factory reports an allocation failure whatever the weights are, the
    bootstrap factory has made no draw, and every block the call had
    acquired has been released. *)
Theorem allocation_failure_precedes_sampling (cSamples : size_t)
    (aWeights : option (list FloatFast)) (w : World) :
  mallocs_succeed 3 w = false ->
  (fst (GenerateSingleInnerBag cSamples aWeights w) = inl AllocationFailure /\
   rng (snd (GenerateSingleInnerBag cSamples aWeights w)) = rng w /\
   live (snd (GenerateSingleInnerBag cSamples aWeights w)) = live w) /\
  (fst (GenerateFlatInnerBag cSamples aWeights w) = inl AllocationFailure /\
   live (snd (GenerateFlatInnerBag cSamples aWeights w)) = live w).
Proof.
  intros Hm. split.
  - destruct (GenerateSingleInnerBag cSamples aWeights w) as [[e|b] w'] eqn:E;
      apply GenerateSingleInnerBag_inv in E; cbn [fst snd].
    + destruct e; [tauto|]. destruct E as (E & _). congruence.
    + destruct E as ((E & _) & _). congruence.
  - destruct (GenerateFlatInnerBag cSamples aWeights w) as [[e|b] w'] eqn:E;
      apply GenerateFlatInnerBag_inv in E as (_ & E); cbn [fst snd].
    + destruct e; [tauto|]. destruct E as (E & _). congruence.
    + destruct E as ((E & _) & _). congruence.
Qed.

(** * Further properties of bag sets *)

Lemma draws_add (a b : nat) (cSamples : size_t) (r : RandomDeterministic) :
  draws (a + b) cSamples r = draws b cSamples (draws a cSamples r).
Proof.
  revert r. induction a as [|a IH]; intros r; simpl; [reflexivity | apply IH].
Qed.

Lemma disjoint_union_split (A B L : gset block) :
  A ## B ∪ L -> B ## A /\ A ## L.
Proof. set_solver. Qed.

Lemma disjoint_union_join (A B L : gset block) :
  A ## L -> B ## L -> A ∪ B ## L.
Proof. set_solver. Qed.

Lemma bags_separate_lookup (bags : list InnerBag) (L : gset block) :
  bags_separate L bags ->
  forall (j : nat) (bj : InnerBag),
    bags !! j = Some bj ->
    bag_blocks bj ## L /\
    forall (k : nat) (bk : InnerBag),
      (j < k)%nat -> bags !! k = Some bk -> bag_blocks bj ## bag_blocks bk.
Proof.
  revert L. induction bags as [|b bags IH]; intros L Hsep j bj Hj;
    [discriminate|].
  destruct Hsep as (HbL & _ & _ & _ & Hsep).
  destruct j as [|j]; simpl in Hj.
  - injection Hj as <-. split; [exact HbL|].
    intros k bk Hjk Hk. destruct k as [|k]; [lia|]. simpl in Hk.
    destruct (IH _ Hsep k bk Hk) as (Hk' & _).
    now apply disjoint_union_split in Hk'.
  - destruct (IH _ Hsep j bj Hj) as (Hj' & Hrest). split.
    + now apply disjoint_union_split in Hj'.
    + intros k bk Hjk Hk. destruct k as [|k]; [lia|]. simpl in Hk.
      apply (Hrest k bk); [lia | exact Hk].
Qed.

Lemma bags_separate_blocks (bags : list InnerBag) (L : gset block) :
  bags_separate L bags -> slots_blocks (Some <$> bags) ## L.
Proof.
  revert L. induction bags as [|b bags IH]; intros L Hsep; simpl.
  - apply disjoint_empty_l.
  - destruct Hsep as (HbL & _ & _ & _ & Hsep). specialize (IH _ Hsep).
    apply disjoint_union_join; [exact HbL|].
    now apply disjoint_union_split in IH.
Qed.

Lemma live_add_bag (L B R : gset block) :
  R ∪ (B ∪ L) = (B ∪ R) ∪ L.
Proof. set_solver. Qed.

(** The loop of [GenerateInnerBags], when it ends with a set: the bags it
    adds, in the order of the slots. *)
Lemma GenerateInnerBags_loop_sequence (fuel fuelFree : nat)
    (cSamples : size_t) (aWeights : option (list FloatFast))
    (cInnerBags : size_t) (p : block) (bags : list InnerBag) (i : size_t)
    (w w' : World) (ap' : array (option InnerBag)) :
  0 <= i < cInnerBags -> cInnerBags <= SIZE_MAX ->
  length bags = Z.to_nat i ->
  GenerateInnerBags_loop fuel fuelFree cSamples aWeights cInnerBags
    (mkArray p (bags_slots bags (Z.to_nat (cInnerBags - i)))) i w
  = Some (Some ap', w') ->
  exists rest,
    base ap' = p /\ elems ap' = Some <$> (bags ++ rest) /\
    length rest = Z.to_nat (cInnerBags - i) /\
    rng w' = draws (length rest * Z.to_nat cSamples) cSamples (rng w) /\
    oom w' = drop (3 * length rest) (oom w) /\
    (forall (j : nat) (b : InnerBag),
       rest !! j = Some b ->
       elems (m_aCountOccurrences b) = nth_bag_counts cSamples (rng w) j) /\
    bags_separate (live w) rest /\
    live w' = slots_blocks (Some <$> rest) ∪ live w.
Proof.
  intros Hi Hmax. revert bags i w Hi.
  induction fuel as [|fuel IH]; intros bags i w Hi Hlen Hrun; [discriminate|].
  cbn [GenerateInnerBags_loop] in Hrun.
  destruct (GenerateSingleInnerBag cSamples aWeights w) as [[e|b] w1] eqn:E.
  - destruct (FreeInnerBags _ _ _ _); discriminate.
  - apply GenerateSingleInnerBag_inv in E.
    destruct E as (Hbuilt & Hrng1 & Hcounts & _).
    destruct Hbuilt as (_ & Hoom1 & Hfresh & Hlive1 & Hd1 & Hd2 & Hd3).
    cbn [base elems] in Hrun.
    assert (Hw : size_t_wrap (i + 1) = i + 1).
    { unfold size_t_wrap, SIZE_MAX in *. apply Z.mod_small. lia. }
    rewrite Hw in Hrun.
    replace (Z.to_nat (cInnerBags - i))
      with (S (Z.to_nat (cInnerBags - (i + 1)))) in Hrun |- * by lia.
    rewrite <- Hlen, bags_slots_insert in Hrun.
    destruct (Z.eqb_spec cInnerBags (i + 1)) as [Heq|Hne].
    + injection Hrun as <- <-. exists [b]. cbn [base elems length].
      replace (Z.to_nat (cInnerBags - (i + 1))) with 0%nat by lia.
      unfold bags_slots. rewrite app_nil_r.
      split_and!; try done.
      * rewrite Hrng1. f_equal; lia.
      * intros j b' Hj. destruct j as [|j]; [|discriminate].
        injection Hj as <-. rewrite Hcounts. unfold nth_bag_counts.
        reflexivity.
      * simpl. rewrite Hlive1. now rewrite union_empty_r_L.
    + apply IH in Hrun; [|lia|rewrite length_app; simpl; lia].
      destruct Hrun as (rest & Hbase & Helems & Hlenr & Hrng & Hoom & Hcs
                        & Hsep & Hlive).
      exists (b :: rest). cbn [length].
      split_and!.
      * exact Hbase.
      * rewrite Helems, <- app_assoc. reflexivity.
      * rewrite Hlenr. lia.
      * rewrite Hrng, Hrng1, <- draws_add. f_equal; lia.
      * rewrite Hoom, Hoom1, drop_drop. f_equal; lia.
      * intros j b' Hj. destruct j as [|j]; simpl in Hj.
        -- injection Hj as <-. rewrite Hcounts. reflexivity.
        -- rewrite (Hcs j b' Hj). unfold nth_bag_counts.
           rewrite Hrng1, <- draws_add. do 2 f_equal; lia.
      * simpl. rewrite Hlive1 in Hsep. split_and!; done.
      * rewrite Hlive, Hlive1. simpl. apply live_add_bag.
Qed.

(** What a set returned for [cInnerBags >= 1] is made of. *)
Lemma GenerateInnerBags_some_inv (fuel : nat) (cSamples : size_t)
    (aWeights : option (list FloatFast)) (cInnerBags : size_t) (w w' : World)
    (ap : array (option InnerBag)) :
  1 <= cInnerBags <= SIZE_MAX ->
  GenerateInnerBags fuel cSamples aWeights cInnerBags w = Some (Some ap, w') ->
  exists bags,
    elems ap = Some <$> bags /\ length bags = Z.to_nat cInnerBags /\
    (base ap ∉ live w) /\
    rng w' = draws (Z.to_nat cInnerBags * Z.to_nat cSamples) cSamples (rng w) /\
    oom w' = drop (1 + 3 * Z.to_nat cInnerBags) (oom w) /\
    (forall (j : nat) (b : InnerBag),
       bags !! j = Some b ->
       elems (m_aCountOccurrences b) = nth_bag_counts cSamples (rng w) j) /\
    bags_separate ({[ base ap ]} ∪ live w) bags /\
    live w' = slots_blocks (Some <$> bags) ∪ ({[ base ap ]} ∪ live w).
Proof.
  intros Hc Hrun. unfold GenerateInnerBags in Hrun.
  destruct (Z.eqb_spec 0 cInnerBags) as [|_]; [lia|].
  destruct (EbmMalloc cInnerBags w) as [[p|] w1] eqn:E1; [|discriminate].
  apply EbmMalloc_inv in E1 as (Hr1 & Ho1 & _ & Hp & Hl1).
  change (replicate (Z.to_nat cInnerBags) None)
    with (bags_slots [] (Z.to_nat cInnerBags)) in Hrun.
  replace (Z.to_nat cInnerBags) with (Z.to_nat (cInnerBags - 0)) in Hrun at 1
    by lia.
  apply GenerateInnerBags_loop_sequence in Hrun; [|lia|lia|reflexivity].
  destruct Hrun as (rest & Hbase & Helems & Hlenr & Hrng & Hoom & Hcs
                    & Hsep & Hlive).
  rewrite Z.sub_0_r in Hlenr. simpl in Helems. subst p.
  exists rest. rewrite Hlenr in Hrng, Hoom.
  split_and!; try done.
  - now rewrite Hrng, Hr1.
  - rewrite Hoom, Ho1. change (tail (oom w)) with (tail (drop 0 (oom w))).
    rewrite tail_drop, drop_drop. f_equal.
  - intros j b Hj. rewrite (Hcs j b Hj), Hr1. reflexivity.
  - now rewrite Hl1 in Hsep.
  - now rewrite Hlive, Hl1.
Qed.

(** What a set returned for [cInnerBags = 0] is made of. *)
Lemma GenerateInnerBags_zero_inv (fuel : nat) (cSamples : size_t)
    (aWeights : option (list FloatFast)) (w w' : World)
    (ap : array (option InnerBag)) :
  GenerateInnerBags fuel cSamples aWeights 0 w = Some (Some ap, w') ->
  exists b,
    elems ap = [Some b] /\ (base ap ∉ live w) /\
    bags_separate ({[ base ap ]} ∪ live w) [b] /\
    live w' = slots_blocks [Some b] ∪ ({[ base ap ]} ∪ live w).
Proof.
  unfold GenerateInnerBags. change (0 =? 0) with true. cbn iota. intros Hrun.
  destruct (EbmMalloc 1 w) as [[p|] w1] eqn:E1; [|discriminate].
  apply EbmMalloc_inv in E1 as (_ & _ & _ & Hp & Hl1).
  destruct (GenerateFlatInnerBag cSamples aWeights w1) as [[e|b] w2] eqn:E2;
    [discriminate|].
  injection Hrun as <- <-. cbn [base elems].
  apply GenerateFlatInnerBag_inv in E2 as (_ & Hbuilt & _).
  destruct Hbuilt as (_ & _ & Hfresh & Hlive & Hd1 & Hd2 & Hd3).
  rewrite Hl1 in Hfresh, Hlive.
  exists b. simpl. split_and!; try done.
  rewrite Hlive. now rewrite union_empty_r_L.
Qed.

Lemma live_set_released (L SB : gset block) (p : block) :
  SB ## {[ p ]} ∪ L -> p ∉ L -> (SB ∪ ({[ p ]} ∪ L)) ∖ SB ∖ {[ p ]} = L.
Proof. set_solver. Qed.

(** X8. Construction and release are matched: a bag set returned by
    [GenerateInnerBags] for some [cInnerBags], zero included, and handed to
    [FreeInnerBags] with the same [cInnerBags] is released whole. The heap
    is the one of before the construction; the generator and the allocation
    script are left as the construction left them. *)
Theorem GenerateInnerBags_then_FreeInnerBags (fuel fuelFree : nat)
    (cSamples : size_t) (aWeights : option (list FloatFast))
    (cInnerBags : size_t) (w w' : World) (ap : array (option InnerBag)) :
  0 <= cInnerBags <= SIZE_MAX ->
  (Z.to_nat (Z.max cInnerBags 1) <= fuelFree)%nat ->
  GenerateInnerBags fuel cSamples aWeights cInnerBags w = Some (Some ap, w') ->
  exists w'',
    FreeInnerBags fuelFree cInnerBags (Some ap) w' = Some w'' /\
    live w'' = live w /\ rng w'' = rng w' /\ oom w'' = oom w'.
Proof.
  intros Hc Hfuel Hrun.
  assert (Hshape : exists bags,
             elems ap = Some <$> bags /\
             length bags = Z.to_nat (Z.max cInnerBags 1) /\
             (base ap ∉ live w) /\
             bags_separate ({[ base ap ]} ∪ live w) bags /\
             live w' = slots_blocks (Some <$> bags) ∪ ({[ base ap ]} ∪ live w)).
  { destruct (Z.eq_dec cInnerBags 0) as [->|Hne].
    - apply GenerateInnerBags_zero_inv in Hrun as (b & He & Hp & Hsep & Hl).
      exists [b]. split_and!; done.
    - apply GenerateInnerBags_some_inv in Hrun; [|lia].
      destruct Hrun as (bags & He & Hlen & Hp & _ & _ & _ & Hsep & Hl).
      exists bags. split_and!; try done. rewrite Hlen. f_equal. lia. }
  destruct Hshape as (bags & He & Hlen & Hp & Hsep & Hl).
  rewrite FreeInnerBags_spec; [|exact Hc|exact Hfuel|].
  - eexists. split; [reflexivity|].
    rewrite take_ge by (rewrite He, length_fmap; lia).
    destruct (release_slots_frame (elems ap) w') as (Hl' & Ho' & Hr').
    unfold free. cbn [live oom rng]. split_and!; try done.
    rewrite Hl', Hl, He. apply live_set_released; [|exact Hp].
    now apply bags_separate_blocks.
  - rewrite He, length_fmap. lia.
Qed.

(** X9. The bags of a set consume the generator in the order of the slots:
    in a set returned for [cInnerBags >= 1], the bag of slot [k] holds the
    counts that a single construction draws from the state reached after
    [k * cSamples] draws. The call leaves the generator [cInnerBags *
    cSamples] draws further and has made [1 + 3 * cInnerBags] allocations,
    one for the slot sequence and three for each bag. *)
Theorem GenerateInnerBags_draws_in_sequence (fuel : nat) (cSamples : size_t)
    (aWeights : option (list FloatFast)) (cInnerBags : size_t) (w w' : World)
    (ap : array (option InnerBag)) :
  1 <= cInnerBags <= SIZE_MAX ->
  GenerateInnerBags fuel cSamples aWeights cInnerBags w = Some (Some ap, w') ->
  length (elems ap) = Z.to_nat cInnerBags /\
  (forall k : nat,
     (k < Z.to_nat cInnerBags)%nat ->
     exists b,
       elems ap !! k = Some (Some b) /\
       elems (m_aCountOccurrences b) =
         bootstrap_counts cSamples
           (draws (k * Z.to_nat cSamples) cSamples (rng w))) /\
  rng w' = draws (Z.to_nat cInnerBags * Z.to_nat cSamples) cSamples (rng w) /\
  oom w' = drop (1 + 3 * Z.to_nat cInnerBags) (oom w).
Proof.
  intros Hc Hrun. apply GenerateInnerBags_some_inv in Hrun; [|exact Hc].
  destruct Hrun as (bags & He & Hlen & _ & Hrng & Hoom & Hcs & _).
  split_and!; try done.
  - now rewrite He, length_fmap.
  - intros k Hk.
    destruct (lookup_lt_is_Some_2 bags k) as [b Hb]; [lia|].
    exists b. split.
    + rewrite He, list_lookup_fmap, Hb. reflexivity.
    + exact (Hcs k b Hb).
Qed.

(** X10. No two bags of a returned set share a block. For every
    [cInnerBags], zero included, the bags of two different slots own
    disjoint blocks, and no bag owns the block of the slot sequence or a
    block that was live before the call. *)
Theorem GenerateInnerBags_bags_own_separate_blocks (fuel : nat)
    (cSamples : size_t) (aWeights : option (list FloatFast))
    (cInnerBags : size_t) (w w' : World) (ap : array (option InnerBag)) :
  0 <= cInnerBags <= SIZE_MAX ->
  GenerateInnerBags fuel cSamples aWeights cInnerBags w = Some (Some ap, w') ->
  forall (j : nat) (bj : InnerBag),
    elems ap !! j = Some (Some bj) ->
    (base ap ∉ bag_blocks bj) /\
    bag_blocks bj ## live w /\
    forall (k : nat) (bk : InnerBag),
      j <> k -> elems ap !! k = Some (Some bk) ->
      bag_blocks bj ## bag_blocks bk.
Proof.
  intros Hc Hrun.
  assert (Hshape : exists bags,
             elems ap = Some <$> bags /\
             bags_separate ({[ base ap ]} ∪ live w) bags).
  { destruct (Z.eq_dec cInnerBags 0) as [->|Hne].
    - apply GenerateInnerBags_zero_inv in Hrun as (b & He & _ & Hsep & _).
      now exists [b].
    - apply GenerateInnerBags_some_inv in Hrun; [|lia].
      destruct Hrun as (bags & He & _ & _ & _ & _ & _ & Hsep & _).
      now exists bags. }
  destruct Hshape as (bags & He & Hsep).
  assert (Hget : forall (i : nat) (b : InnerBag),
             elems ap !! i = Some (Some b) -> bags !! i = Some b).
  { intros i b Hi. rewrite He, list_lookup_fmap in Hi.
    destruct (bags !! i) as [b'|]; simpl in Hi; congruence. }
  intros j bj Hj. apply Hget in Hj.
  destruct (bags_separate_lookup bags _ Hsep j bj Hj) as (Hout & Hlater).
  split_and!.
  - intros Hin. apply (Hout (base ap)); [exact Hin|].
    apply elem_of_union_l, elem_of_singleton. reflexivity.
  - intros x Hx Hxl. apply (Hout x Hx). now apply elem_of_union_r.
  - intros k bk Hjk Hk. apply Hget in Hk.
    destruct (Nat.lt_total j k) as [Hlt|[Heq|Hgt]]; [|congruence|].
    + exact (Hlater k bk Hlt Hk).
    + destruct (bags_separate_lookup bags _ Hsep k bk Hk) as (_ & Hlater').
      symmetry. exact (Hlater' j bj Hgt Hj).
Qed.

Lemma sample_loop_length (n : nat) (cSamples : size_t)
    (r : RandomDeterministic) (l : list size_t) :
  length (fst (sample_loop n cSamples r l)) = length l.
Proof.
  revert r l. induction n as [|n IH]; intros r l; simpl; [reflexivity|].
  destruct (NextFast r cSamples) as [i r']. now rewrite IH, length_alter.
Qed.

(** X11. With external weights, the total of a returned bag is the safe sum
    of the weights the bag itself stores, for the bootstrap factory and for
    the flat one, and a flat bag stores no more than [cSamples] weights. *)
Theorem weighted_total_sums_stored_weights (cSamples : size_t)
    (a : list FloatFast) (w w' : World) (b : InnerBag) :
  GenerateSingleInnerBag cSamples (Some a) w = (inr b, w') \/
  GenerateFlatInnerBag cSamples (Some a) w = (inr b, w') ->
  m_weightTotal b = AddPositiveFloatsSafeBig cSamples (elems (m_aWeights b)) /\
  (length (elems (m_aWeights b)) <= Z.to_nat cSamples)%nat.
Proof.
  intros [H|H].
  - apply GenerateSingleInnerBag_inv in H as (_ & _ & Hc & Hw & Ht & _).
    split; [exact Ht|]. rewrite Hw, Hc. unfold effective_weights.
    rewrite length_zip_with. unfold bootstrap_counts.
    rewrite sample_loop_length, length_replicate. lia.
  - apply GenerateFlatInnerBag_inv in H as (_ & _ & _ & Hw & Ht & _).
    split; [now rewrite Ht, Hw|]. rewrite Hw, length_take. lia.
Qed.

Lemma script_ok_app (j k : nat) (script : list bool) :
  script_ok (j + k) script = true ->
  script_ok j script = true /\ script_ok k (drop j script) = true.
Proof.
  unfold script_ok. revert script.
  induction j as [|j IH]; intros script H; simpl in *.
  - split; [reflexivity | exact H].
  - destruct script as [|x script]; simpl in *.
    + split; [reflexivity|]. now rewrite take_nil.
    + apply andb_true_iff in H as [-> H]. simpl. now apply IH.
Qed.

Lemma GenerateSingleInnerBag_unweighted_succeeds (cSamples : size_t)
    (w : World) :
  mallocs_succeed 3 w = true ->
  exists b w', GenerateSingleInnerBag cSamples None w = (inr b, w').
Proof.
  intros Hm.
  destruct (GenerateSingleInnerBag cSamples None w) as [[e|b] w'] eqn:E;
    [|eauto].
  apply GenerateSingleInnerBag_inv in E. destruct e.
  - destruct E as (E & _). congruence.
  - destruct E as (_ & _ & _ & _ & a & [=] & _).
Qed.

Lemma GenerateInnerBags_loop_unweighted (fuel fuelFree : nat)
    (cSamples cInnerBags : size_t) (ap : array (option InnerBag))
    (i : size_t) (w : World) :
  0 <= i < cInnerBags -> cInnerBags <= SIZE_MAX ->
  (Z.to_nat (cInnerBags - i) <= fuel)%nat ->
  script_ok (3 * Z.to_nat (cInnerBags - i)) (oom w) = true ->
  exists ap' w',
    GenerateInnerBags_loop fuel fuelFree cSamples None cInnerBags ap i w
    = Some (Some ap', w').
Proof.
  intros Hi Hmax. revert ap i w Hi.
  induction fuel as [|fuel IH]; intros ap i w Hi Hfuel Hs; [lia|].
  cbn [GenerateInnerBags_loop].
  replace (3 * Z.to_nat (cInnerBags - i))%nat
    with (3 + 3 * Z.to_nat (cInnerBags - (i + 1)))%nat in Hs by lia.
  apply script_ok_app in Hs as (Hs3 & Hrest).
  destruct (GenerateSingleInnerBag_unweighted_succeeds cSamples w Hs3)
    as (b & w1 & E).
  rewrite E.
  apply GenerateSingleInnerBag_inv in E as ((_ & Hoom & _) & _).
  assert (Hw : size_t_wrap (i + 1) = i + 1).
  { unfold size_t_wrap, SIZE_MAX in *. apply Z.mod_small. lia. }
  rewrite Hw.
  destruct (Z.eqb_spec cInnerBags (i + 1)) as [Heq|Hne]; [eauto|].
  apply IH; [lia | lia | now rewrite Hoom].
Qed.

(** X12. Without external weights only an allocation can make the
    construction of a bag set fail: when the [1 + 3 * max cInnerBags 1]
    allocations of the call all succeed, [GenerateInnerBags] returns a set,
    for every [cInnerBags], zero included, and every [cSamples]. *)
Theorem GenerateInnerBags_unweighted_succeeds (fuel : nat)
    (cSamples cInnerBags : size_t) (w : World) :
  0 <= cInnerBags <= SIZE_MAX ->
  (Z.to_nat (Z.max cInnerBags 1) <= fuel)%nat ->
  mallocs_succeed (1 + 3 * Z.to_nat (Z.max cInnerBags 1)) w = true ->
  exists ap w',
    GenerateInnerBags fuel cSamples None cInnerBags w = Some (Some ap, w').
Proof.
  intros Hc Hfuel Hm. unfold mallocs_succeed in Hm.
  apply script_ok_app in Hm as (Hm1 & Hm).
  unfold GenerateInnerBags.
  destruct (EbmMalloc (if 0 =? cInnerBags then 1 else cInnerBags) w)
    as [[p|] w1] eqn:E1; apply EbmMalloc_inv in E1 as (_ & Ho1 & E1).
  - change (drop 1 (oom w)) with (tail (drop 0 (oom w))) in Hm.
    rewrite drop_0, <- Ho1 in Hm.
    destruct (Z.eqb_spec 0 cInnerBags) as [<-|Hne].
    + change (Z.to_nat (Z.max 0 1)) with 1%nat in Hm.
      destruct (GenerateFlatInnerBag cSamples None w1) as [[e|b] w2] eqn:E2;
        [|eauto].
      apply GenerateFlatInnerBag_inv in E2 as (_ & E2). destruct e.
      * destruct E2 as (E2 & _). unfold mallocs_succeed in E2.
        change (3 * 1)%nat with 3%nat in Hm. congruence.
      * destruct E2 as (_ & _ & _ & a & [=] & _).
    + apply GenerateInnerBags_loop_unweighted; try lia.
      rewrite Z.sub_0_r.
      now replace (Z.to_nat cInnerBags) with (Z.to_nat (Z.max cInnerBags 1))
        by lia.
  - destruct E1 as (Hhead & _).
    apply (script_ok_fail 0) in Hhead. congruence.
Qed.

End Properties.


(** * The claims on numbers

    The statements above, run on the reference collaborators. *)

Lemma Reference_draw_in_range : NextFast_in_range (C := Reference.collaborators).
Proof.
  intros r n Hn. unfold NextFast. cbn [Reference.collaborators].
  unfold Reference.draw. cbn [fst]. apply Z.mod_pos_bound. exact Hn.
Qed.

Lemma exact_draw_in_range :
  NextFast_in_range (C := Reference.exact_collaborators).
Proof.
  intros r n Hn. unfold NextFast. cbn [Reference.exact_collaborators].
  unfold Reference.draw. cbn [fst]. apply Z.mod_pos_bound. exact Hn.
Qed.

(** *** The exact sum meets the contract of the safe summation *)

Lemma scaled_bounds (x : FloatFast) :
  finite_nonneg binary32 x = true ->
  0 <= Reference.scaled x < 2 ^ 277 /\
  (0 < Reference.scaled x <-> finite_positive x = true).
Proof.
  destruct x as [s|s| |[] m e];
    cbn [finite_nonneg finite_positive Reference.scaled];
    try discriminate;
    try (intros _; split; [lia | split; [lia | discriminate]]).
  intros H. apply andb_true_iff in H as [Hlo Hhi].
  apply Z.leb_le in Hlo. apply Z.ltb_lt in Hhi. unfold SpecFloat.emin in Hlo.
  cbn [prec emax] in Hlo, Hhi.
  pose proof (Z.log2_nonneg (Z.pos m)) as Hlog.
  assert (Hm : Z.pos m < 2 ^ (128 - e)) by (apply Z.log2_lt_pow2; lia).
  assert (Hpow : 0 < 2 ^ (e + 149)) by (apply Z.pow_pos_nonneg; lia).
  assert (Hmul : Z.pos m * 2 ^ (e + 149) < 2 ^ (128 - e) * 2 ^ (e + 149))
    by (apply Z.mul_lt_mono_pos_r; assumption).
  rewrite <- Z.pow_add_r in Hmul by lia.
  replace (128 - e + (e + 149)) with 277 in Hmul by lia.
  split; [lia|]. split; [reflexivity | lia].
Qed.

Lemma sum_scaled_bounds (a : list FloatFast) :
  Forall (fun x => finite_nonneg binary32 x = true) a ->
  0 <= foldr Z.add 0 (Reference.scaled <$> a)
    <= Z.of_nat (length a) * (2 ^ 277 - 1) /\
  (0 < foldr Z.add 0 (Reference.scaled <$> a) <->
   Exists (fun x => finite_positive x = true) a).
Proof.
  induction 1 as [|x a Hx Ha (IH1 & IH2)].
  - simpl. split; [lia|]. rewrite Exists_nil. split; [lia | tauto].
  - destruct (scaled_bounds x Hx) as (Hb & Hp).
    cbn [fmap list_fmap foldr length]. rewrite Exists_cons, <- IH2, <- Hp.
    split; lia.
Qed.

Lemma exact_sum_safe :
  AddPositiveFloatsSafeBig_safe (C := Reference.exact_collaborators).
Proof.
  intros cVals a Hc Hlen Hall.
  cbn [AddPositiveFloatsSafeBig Reference.exact_collaborators fmtFast] in *.
  unfold Reference.exact_sum. rewrite take_ge by lia.
  assert (Hb : forallb (finite_nonneg binary32) a = true).
  { clear -Hall. induction Hall as [|x a Hx _ IH]; simpl; [reflexivity|].
    now rewrite Hx, IH. }
  rewrite Hb. destruct (sum_scaled_bounds a Hall) as (Hsum & Hpos).
  set (M := foldr Z.add 0 (Reference.scaled <$> a)) in *.
  destruct (Z.eq_dec M 0) as [->|HM].
  - simpl. split_and!; try reflexivity.
    rewrite <- Hpos. split; [discriminate | lia].
  - destruct (binary_normalize_finite (prec binary64) (emax binary64))
      with (n := M) (e := -149) as (m & e' & ->);
      unfold SpecFloat.emin; simpl; try lia.
    + assert (HM2 : M < 2 ^ 341).
      { unfold SIZE_MAX in Hc. nia. }
      assert (Z.log2 M < 341) by (apply Z.log2_lt_pow2; lia). lia.
    + split_and!; try reflexivity. rewrite <- Hpos. split; [lia | reflexivity].
Qed.

(** Zero bags asked for, with the weights [0] and [1]: the set has one slot
    and its bag has the contents of the bag a direct call of the flat
    factory builds, at other blocks. *)
Lemma GenerateInnerBags_zero_is_flat_witness :
  let a := Some [float_zero; Reference.one] in
  let w := Reference.world 0 [] in
  let direct := GenerateFlatInnerBag (C := Reference.collaborators) 2 a w in
  exists b b' w',
    GenerateInnerBags (C := Reference.collaborators) 0 2 a 0 w
      = Some (Some (mkArray 0 [Some b]), w') /\
    direct = (inr b', snd direct) /\
    this b = 1%nat /\ this b' = 0%nat /\
    elems (m_aCountOccurrences b) = elems (m_aCountOccurrences b') /\
    elems (m_aWeights b) = elems (m_aWeights b') /\
    m_weightTotal b = m_weightTotal b'.
Proof.
  intros a w direct.
  set (w1 := snd (EbmMalloc (C := Reference.collaborators) 1 w)).
  set (flat := GenerateFlatInnerBag (C := Reference.collaborators) 2 a w1).
  set (b := mkInnerBag 1 (mkArray 2 [1; 1])
              (mkArray 3 [float_zero; Reference.one])
              (float_of_size_t binary64 1)).
  set (b' := mkInnerBag 0 (mkArray 1 [1; 1])
               (mkArray 2 [float_zero; Reference.one])
               (float_of_size_t binary64 1)).
  assert (E1 : EbmMalloc (C := Reference.collaborators) 1 w = (Some 0%nat, w1))
    by reflexivity.
  assert (E2 : flat = (inr b, snd flat)) by reflexivity.
  assert (E3 : direct = (inr b', snd direct)) by reflexivity.
  destruct (GenerateInnerBags_zero_is_flat (C := Reference.collaborators)
              0 2 a w) as (_ & _ & Hset).
  destruct (Hset 0%nat w1 b (snd flat) E1 E2) as (Hrun & Hsame).
  exists b, b', (snd flat). split; [exact Hrun|]. split; [exact E3|].
  do 2 (split; [reflexivity|]). exact (Hsame w (snd direct) b' E3).
Defined.

(** The scenario of four samples whose draws are the indices 2, 2, 0, 3. *)
Example four_samples_drawn :
  fst (GenerateSingleInnerBag (C := Reference.collaborators) 4 None
         (Reference.world 7 [])) =
  inr (mkInnerBag 0 (mkArray 1 [1; 0; 2; 1])
         (mkArray 2 [float_one binary32; float_zero;
                     float_of_size_t binary32 2; float_one binary32])
         (float_of_size_t binary64 4)).
Proof. reflexivity. Qed.

Lemma GenerateSingleInnerBag_unweighted_witness :
  let run := GenerateSingleInnerBag (C := Reference.collaborators) 4 None
               (Reference.world 7 []) in
  exists b,
    run = (inr b, snd run) /\
    elems (m_aCountOccurrences b) = [1; 0; 2; 1] /\
    sum_size_t (elems (m_aCountOccurrences b)) = 4 /\
    m_weightTotal b = float_of_size_t binary64 4 /\
    float_is_integer (m_weightTotal b) 4.
Proof.
  intros run.
  set (b := mkInnerBag 0 (mkArray 1 [1; 0; 2; 1])
              (mkArray 2 [float_one binary32; float_zero;
                          float_of_size_t binary32 2; float_one binary32])
              (float_of_size_t binary64 4)).
  assert (Hrun : run = (inr b, snd run)) by reflexivity.
  exists b. split; [exact Hrun|]. split; [reflexivity|].
  destruct (GenerateSingleInnerBag_unweighted (C := Reference.collaborators)
              4 (Reference.world 7 []) (snd run) b Reference_draw_in_range)
    as (_ & Hsum & _ & Htotal & Hexact & _);
    [unfold SIZE_MAX; lia | exact Hrun |].
  split; [exact Hsum|]. split; [exact Htotal|].
  apply Hexact. cbn [prec fmtBig Reference.collaborators]. lia.
Defined.

(** Two bags of three samples are asked for. When no allocation fails, both
    are built and returned. When the sixth allocation fails, the second call
    of the factory fails after the first bag was placed: that bag and the
    slot sequence are released and no set is returned. *)
Lemma GenerateInnerBags_all_or_nothing_witness :
  let failing := Reference.world 7 [false; false; false; false; false; true] in
  let w := Reference.world 7 [] in
  let b0 := mkInnerBag 1 (mkArray 2 [1; 1; 1])
              (mkArray 3 [Reference.one; Reference.one; Reference.one])
              (float_of_size_t binary64 3) in
  let b1 := mkInnerBag 4 (mkArray 5 [0; 1; 2])
              (mkArray 6 [float_zero; Reference.one; float_of_size_t binary32 2])
              (float_of_size_t binary64 3) in
  (exists w',
     GenerateInnerBags (C := Reference.collaborators) 2 3 None 2 w
       = Some (Some (mkArray 0 [Some b0; Some b1]), w') /\
     live w' = slots_blocks [Some b0; Some b1] ∪ ({[ 0%nat ]} ∪ live w)) /\
  (exists w1 w2 w',
     fst (bootstrap_run (C := Reference.collaborators) 2 3 None w1)
       = ([b0], false) /\
     GenerateSingleInnerBag (C := Reference.collaborators) 3 None w2
       = (inl AllocationFailure, w') /\
     GenerateInnerBags (C := Reference.collaborators) 2 3 None 2 failing
       = Some (None, free (Some 0%nat) (release_slots [Some b0] w')) /\
     live (free (Some 0%nat) (release_slots [Some b0] w')) = live failing).
Proof.
  intros failing w b0 b1.
  assert (Hc : 1 <= 2 <= SIZE_MAX) by (unfold SIZE_MAX; lia).
  assert (Hfuel : (Z.to_nat 2 <= 2)%nat) by (simpl; lia).
  split.
  - set (w1 := snd (EbmMalloc (C := Reference.collaborators) 2 w)).
    set (run := bootstrap_run (C := Reference.collaborators) 2 3 None w1).
    assert (E1 : EbmMalloc (C := Reference.collaborators) 2 w = (Some 0%nat, w1))
      by reflexivity.
    assert (E2 : run = ([b0; b1], true, snd run)) by reflexivity.
    destruct (GenerateInnerBags_all_or_nothing (C := Reference.collaborators)
                2 3 None 2 w Hc Hfuel) as (_ & Hbuilt & _).
    destruct (Hbuilt 0%nat w1 [b0; b1] (snd run) E1 E2)
      as (Hrun & _ & _ & _ & _ & Hlive).
    exists (snd run). split; [exact Hrun | exact Hlive].
  - set (w1 := snd (EbmMalloc (C := Reference.collaborators) 2 failing)).
    set (run := bootstrap_run (C := Reference.collaborators) 2 3 None w1).
    assert (E1 : EbmMalloc (C := Reference.collaborators) 2 failing
                 = (Some 0%nat, w1)) by reflexivity.
    assert (E2 : run = ([b0], false, snd run)) by reflexivity.
    destruct (GenerateInnerBags_all_or_nothing (C := Reference.collaborators)
                2 3 None 2 failing Hc Hfuel) as (_ & _ & Hfailed).
    destruct (Hfailed 0%nat w1 [b0] (snd run) E1 E2)
      as (_ & (wk & e & _ & Hcall) & Hrun & Hlive).
    assert (He : e = AllocationFailure).
    { apply GenerateSingleInnerBag_inv in Hcall.
      destruct e; [reflexivity|].
      destruct Hcall as (_ & _ & _ & _ & a & [=] & _). }
    subst e.
    exists w1, wk, (snd run). split; [reflexivity|]. split; [exact Hcall|].
    split; [exact Hrun | exact Hlive].
Defined.

(** Both bags of three samples are built when no allocation fails. *)
Example two_bags_built :
  let run := GenerateInnerBags (C := Reference.collaborators) 2 3 None 2
               (Reference.world 7 []) in
  exists b0 b1 w',
    run = Some (Some (mkArray 0 [Some b0; Some b1]), w') /\
    elems (m_aCountOccurrences b0) = [1; 1; 1] /\
    elems (m_aCountOccurrences b1) = [0; 1; 2] /\
    live w' = {[ 0; 1; 2; 3; 4; 5; 6 ]}%nat.
Proof.
  intros run.
  exists (mkInnerBag 1 (mkArray 2 [1; 1; 1])
            (mkArray 3 [Reference.one; Reference.one; Reference.one])
            (float_of_size_t binary64 3)),
         (mkInnerBag 4 (mkArray 5 [0; 1; 2])
            (mkArray 6 [float_zero; Reference.one; float_of_size_t binary32 2])
            (float_of_size_t binary64 3)),
         (match run with Some (_, w') => w' | None => Reference.world 0 [] end).
  split_and!; reflexivity.
Qed.

(** A flat bag over the weights [0] and [1]. *)
Lemma m_weightTotal_valid_witness :
  let run := GenerateFlatInnerBag (C := Reference.collaborators) 2
               (Some [float_zero; Reference.one]) (Reference.world 0 []) in
  exists b,
    run = (inr b, snd run) /\
    m_weightTotal b = float_of_size_t binary64 1 /\
    isnan (m_weightTotal b) = false /\
    isinf (m_weightTotal b) = false /\
    gt_zero (m_weightTotal b) = true.
Proof.
  intros run.
  set (b := mkInnerBag 0 (mkArray 1 [1; 1])
              (mkArray 2 [float_zero; Reference.one])
              (float_of_size_t binary64 1)).
  assert (Hrun : run = (inr b, snd run)) by reflexivity.
  exists b. split; [exact Hrun|]. split; [reflexivity|].
  apply (m_weightTotal_valid (C := Reference.collaborators) 2
           (Some [float_zero; Reference.one]) (Reference.world 0 []) (snd run) b).
  - unfold SIZE_MAX. lia.
  - right. exact Hrun.
Defined.

(** A flat bag over two of the three weights [0], [1], [1], and a flat bag
    over three samples without weights. *)
Lemma GenerateFlatInnerBag_flat_witness :
  let a := [float_zero; Reference.one; Reference.one] in
  let w := Reference.world 0 [] in
  mallocs_succeed 3 w = true /\
  (exists b w',
     GenerateFlatInnerBag (C := Reference.collaborators) 2 (Some a) w
       = (inr b, w') /\
     elems (m_aCountOccurrences b) = [1; 1] /\
     elems (m_aWeights b) = [float_zero; Reference.one] /\
     elems (m_aWeights b) !! 1%nat = a !! 1%nat) /\
  (exists b w',
     GenerateFlatInnerBag (C := Reference.collaborators) 3 None w
       = (inr b, w') /\
     elems (m_aCountOccurrences b) = [1; 1; 1] /\
     elems (m_aWeights b) = [Reference.one; Reference.one; Reference.one] /\
     float_is_integer Reference.one 1 /\
     float_is_integer (m_weightTotal b) 3).
Proof.
  intros a w.
  assert (Hm : mallocs_succeed 3 w = true) by reflexivity.
  split; [exact Hm|]. split.
  - destruct (GenerateFlatInnerBag_flat (C := Reference.collaborators) 2
                (Some a) w) as (Hcontents & Hreturns).
    destruct (Hreturns Hm) as (b & w' & Hrun); [reflexivity|].
    destruct (Hcontents w' b Hrun) as (Hcounts & Hweights & Hcopy).
    exists b, w'. split; [exact Hrun|]. split; [exact Hcounts|].
    split; [exact Hweights|]. apply Hcopy. simpl. lia.
  - destruct (GenerateFlatInnerBag_flat (C := Reference.collaborators) 3
                None w) as (Hcontents & Hreturns).
    destruct (Hreturns Hm I) as (b & w' & Hrun).
    destruct (Hcontents w' b Hrun) as (Hcounts & Hweights & Hone & _ & Hexact).
    exists b, w'. split; [exact Hrun|]. split; [exact Hcounts|].
    split; [exact Hweights|]. split; [exact Hone|].
    apply Hexact. cbn [prec fmtBig Reference.collaborators]. lia.
Defined.

(** The same generator state on two heaps, without and with external
    weights: the bags live at different blocks and hold the same counts. *)
Lemma GenerateSingleInnerBag_deterministic_witness :
  let run1 := GenerateSingleInnerBag (C := Reference.collaborators) 4 None
                (Reference.world 7 []) in
  let run2 := GenerateSingleInnerBag (C := Reference.collaborators) 4
                (Some [Reference.one; float_zero; Reference.one; Reference.one])
                (mkWorld (C := Reference.collaborators) {[ 0%nat; 1%nat ]}
                         [false] 7) in
  exists b1 b2,
    run1 = (inr b1, snd run1) /\ run2 = (inr b2, snd run2) /\
    this b1 <> this b2 /\
    elems (m_aCountOccurrences b1) = elems (m_aCountOccurrences b2) /\
    rng (snd run1) = rng (snd run2).
Proof.
  intros run1 run2.
  set (b1 := mkInnerBag 0 (mkArray 1 [1; 0; 2; 1])
               (mkArray 2 [float_one binary32; float_zero;
                           float_of_size_t binary32 2; float_one binary32])
               (float_of_size_t binary64 4)).
  set (b2 := mkInnerBag 2 (mkArray 3 [1; 0; 2; 1])
               (mkArray 4 [float_one binary32; float_zero;
                           float_of_size_t binary32 2; float_one binary32])
               (float_of_size_t binary64 4)).
  assert (Hrun1 : run1 = (inr b1, snd run1)) by reflexivity.
  assert (Hrun2 : run2 = (inr b2, snd run2)) by reflexivity.
  exists b1, b2. split; [exact Hrun1|]. split; [exact Hrun2|].
  split; [discriminate|].
  assert (Hrng : rng (Reference.world 7 []) =
                 rng (mkWorld (C := Reference.collaborators)
                        {[ 0%nat; 1%nat ]} [false] 7)) by reflexivity.
  apply (GenerateSingleInnerBag_deterministic (C := Reference.collaborators)
           4 None
           (Some [Reference.one; float_zero; Reference.one; Reference.one])
           (Reference.world 7 []) (snd run1)
           (mkWorld (C := Reference.collaborators) {[ 0%nat; 1%nat ]} [false] 7)
           (snd run2) b1 b2 Hrng); assumption.
Defined.

(** A sequence of two slots released with [cInnerBags = 0]: the bag of the
    first slot and the sequence go, the bag of the second slot stays. *)
Lemma FreeInnerBags_releases_witness :
  let b0 := mkInnerBag 1 (mkArray 2 [1]) (mkArray 3 [Reference.one])
              (float_of_size_t binary64 1) in
  let b1 := mkInnerBag 4 (mkArray 5 [1]) (mkArray 6 [Reference.one])
              (float_of_size_t binary64 1) in
  let w := mkWorld (C := Reference.collaborators)
             {[ 0; 1; 2; 3; 4; 5; 6 ]}%nat [] 7 in
  FreeInnerBags 1 0 None w = Some w /\
  exists w',
    FreeInnerBags 1 0 (Some (mkArray 0 [Some b0; Some b1])) w = Some w' /\
    live w' = {[ 4; 5; 6 ]}%nat /\ rng w' = 7.
Proof.
  intros b0 b1 w.
  destruct (FreeInnerBags_releases (C := Reference.collaborators) 1 0 w)
    as (Hnull & Hscan).
  split; [exact Hnull|].
  destruct (Hscan (mkArray 0 [Some b0; Some b1])) as (Hrun & _ & Hframe).
  - unfold SIZE_MAX. lia.
  - simpl. lia.
  - simpl. lia.
  - eexists. split; [exact Hrun|].
    destruct (Hframe _ Hrun) as (Hlive & _ & Hrng).
    split; [|exact Hrng]. rewrite Hlive. reflexivity.
Defined.

(** Two samples with the weights [1] and [0], both draws on the second
    sample: the total is zero, the construction fails, the heap is empty
    again and the generator has moved on by two draws. *)
Lemma GenerateSingleInnerBag_failure_effects_witness :
  let w := Reference.world 2 [] in
  let run := GenerateSingleInnerBag (C := Reference.collaborators) 2
               (Some [Reference.one; float_zero]) w in
  run = (inl InvalidAggregateWeight, snd run) /\
  live (snd run) = live w /\
  rng (snd run) = draws 2 2 (rng w) /\
  rng (snd run) <> rng w.
Proof.
  intros w run.
  assert (Hrun : run = (inl InvalidAggregateWeight, snd run)) by reflexivity.
  split; [exact Hrun|].
  destruct (GenerateSingleInnerBag_failure_effects
              (C := Reference.collaborators) 2
              (Some [Reference.one; float_zero]) w (snd run)
              InvalidAggregateWeight Hrun) as (Hlive & Hrng).
  split; [exact Hlive|]. split; [exact Hrng|].
  rewrite Hrng. vm_compute. discriminate.
Defined.

Lemma factories_fail_iff_invalid_total_witness :
  let w := Reference.world 2 [] in
  let a := [Reference.one; float_zero] in
  mallocs_succeed 3 w = true /\
  (exists e, fst (GenerateSingleInnerBag (C := Reference.collaborators)
                    2 (Some a) w) = inl e) /\
  ~ (exists e, fst (GenerateFlatInnerBag (C := Reference.collaborators)
                      2 (Some a) w) = inl e).
Proof.
  intros w a.
  assert (Hm : mallocs_succeed 3 w = true) by reflexivity.
  destruct (factories_fail_iff_invalid_total (C := Reference.collaborators)
              2 a w Hm) as (Hsingle & Hflat & _).
  split; [exact Hm|]. split.
  - apply Hsingle. reflexivity.
  - intros Hfail. apply Hflat in Hfail. vm_compute in Hfail. discriminate Hfail.
Defined.

(** Two samples with the weights [0] and [1], each drawn once, summed
    exactly. *)
Lemma factories_succeed_on_positive_weights_witness :
  let w := mkWorld (C := Reference.exact_collaborators) ∅ [] 0 in
  let a := [float_zero; Reference.one] in
  bootstrap_counts (C := Reference.exact_collaborators) 2 (rng w) = [1; 1] /\
  (exists b w',
     GenerateFlatInnerBag (C := Reference.exact_collaborators) 2 (Some a) w
       = (inr b, w') /\
     isinf (m_weightTotal b) = false /\ gt_zero (m_weightTotal b) = true) /\
  (exists b w',
     GenerateSingleInnerBag (C := Reference.exact_collaborators) 2 (Some a) w
       = (inr b, w') /\
     isinf (m_weightTotal b) = false /\ gt_zero (m_weightTotal b) = true).
Proof.
  intros w a.
  assert (Hcounts : bootstrap_counts (C := Reference.exact_collaborators) 2
                      (rng w) = [1; 1]) by reflexivity.
  assert (Hc : 1 <= 2 <= SIZE_MAX) by (unfold SIZE_MAX; lia).
  assert (Hlen : length a = Z.to_nat 2) by reflexivity.
  assert (Ha : Forall (fun x => finite_nonneg binary32 x = true) a)
    by (repeat constructor).
  assert (Hm : mallocs_succeed 3 w = true) by reflexivity.
  destruct (factories_succeed_on_positive_weights
              (C := Reference.exact_collaborators) 2 a w
              exact_draw_in_range exact_sum_safe Hc Hlen Ha Hm)
    as (Hflat & Hboot & Htotal).
  split; [exact Hcounts|]. split.
  - destruct Hflat as [_ Hflat].
    destruct Hflat as (b & w' & Hrun); [right; left; reflexivity|].
    destruct (Htotal b w' (or_introl Hrun)) as (_ & Hinf & Hgt).
    exists b, w'. split; [exact Hrun|]. split; [exact Hinf | exact Hgt].
  - destruct Hboot as [_ Hboot].
    + rewrite Hcounts. repeat constructor.
    + destruct Hboot as (b & w' & Hrun).
      * rewrite Hcounts. exists 1%nat, 1, Reference.one.
        split_and!; reflexivity.
      * destruct (Htotal b w' (or_intror Hrun)) as (_ & Hinf & Hgt).
        exists b, w'. split; [exact Hrun|]. split; [exact Hinf | exact Hgt].
Defined.

(** C4 as stated fails: when the first allocation fails, both factories fail
    although the sum of the effective weights is a number above zero. *)
Lemma factories_fail_on_allocation :
  let w := Reference.world 0 [true] in
  let a := [Reference.one; Reference.one] in
  ~ ((exists e, fst (GenerateFlatInnerBag (C := Reference.collaborators)
                       2 (Some a) w) = inl e) <->
     invalid_total
       (@AddPositiveFloatsSafeBig Reference.collaborators 2
          (take (Z.to_nat 2) a)) = true) /\
  ~ ((exists e, fst (GenerateSingleInnerBag (C := Reference.collaborators)
                       2 (Some a) w) = inl e) <->
     invalid_total
       (@AddPositiveFloatsSafeBig Reference.collaborators 2
          (effective_weights (C := Reference.collaborators)
             (bootstrap_counts (C := Reference.collaborators) 2 (rng w)) a))
     = true).
Proof.
  intros w a. split.
  - intros [Hfail _].
    assert (Hinv : invalid_total
                     (@AddPositiveFloatsSafeBig Reference.collaborators 2
                        (take (Z.to_nat 2) a)) = true).
    { apply Hfail. exists AllocationFailure. reflexivity. }
    vm_compute in Hinv. discriminate Hinv.
  - intros [Hfail _].
    assert (Hinv : invalid_total
                     (@AddPositiveFloatsSafeBig Reference.collaborators 2
                        (effective_weights (C := Reference.collaborators)
                           (bootstrap_counts (C := Reference.collaborators)
                              2 (rng w)) a)) = true).
    { apply Hfail. exists AllocationFailure. reflexivity. }
    vm_compute in Hinv. discriminate Hinv.
Qed.

(** C9 as stated fails. With the weights [1] and [0] and both draws on the
    second sample, every effective weight of the bootstrap bag is zero and
    no bag is returned, although no allocation fails. Next to it: the flat
    factory fails on the same weights when its first allocation fails; it
    fails on a zero next to an infinite weight, which is above zero; the
    bootstrap factory fails on a zero next to the largest finite weight when
    that sample is drawn twice, the product being infinite; and the flat
    factory fails on a single zero weight, which has no entry next to it. *)
Lemma zero_next_to_positive_weights_can_fail :
  (let w := Reference.world 2 [] in
   let a := [Reference.one; float_zero] in
   1 <= 2 /\
   In float_zero a /\
   Forall (fun x => x = float_zero \/ gt_zero x = true) a /\
   Exists (fun x => gt_zero x = true /\ isinf x = false) a /\
   mallocs_succeed 3 w = true /\
   bootstrap_counts (C := Reference.collaborators) 2 (rng w) = [0; 2] /\
   fst (GenerateSingleInnerBag (C := Reference.collaborators) 2 (Some a) w)
     = inl InvalidAggregateWeight) /\
  (let w := Reference.world 0 [true] in
   let a := [Reference.one; float_zero] in
   fst (GenerateFlatInnerBag (C := Reference.collaborators) 2 (Some a) w)
     = inl AllocationFailure) /\
  (let w := Reference.world 0 [] in
   let a := [float_zero; S754_infinity false] in
   gt_zero (S754_infinity false) = true /\
   mallocs_succeed 3 w = true /\
   fst (GenerateFlatInnerBag (C := Reference.collaborators) 2 (Some a) w)
     = inl InvalidAggregateWeight) /\
  (let w := Reference.world 2 [] in
   let a := [float_zero; Reference.max_float] in
   finite_nonneg binary32 Reference.max_float = true /\
   finite_positive Reference.max_float = true /\
   mallocs_succeed 3 w = true /\
   bootstrap_counts (C := Reference.collaborators) 2 (rng w) = [0; 2] /\
   float_mul binary32 (float_of_size_t binary32 2) Reference.max_float
     = S754_infinity false /\
   fst (GenerateSingleInnerBag (C := Reference.collaborators) 2 (Some a) w)
     = inl InvalidAggregateWeight) /\
  (let w := Reference.world 0 [] in
   mallocs_succeed 3 w = true /\
   fst (GenerateFlatInnerBag (C := Reference.collaborators) 1
          (Some [float_zero]) w)
     = inl InvalidAggregateWeight).
Proof.
  split_and!; intros; split_and?; try reflexivity.
  - lia.
  - right. left. reflexivity.
  - apply Forall_cons. split; [right; reflexivity|].
    apply Forall_cons. split; [left; reflexivity|]. apply Forall_nil_2.
  - left. split; reflexivity.
Qed.

(** External weights that are all zero: both factories refuse the total and
    leave the heap empty. *)
Example all_zero_weights_fail :
  let w := Reference.world 0 [] in
  let a := [float_zero; float_zero] in
  fst (GenerateFlatInnerBag (C := Reference.collaborators) 2 (Some a) w)
    = inl InvalidAggregateWeight /\
  fst (GenerateSingleInnerBag (C := Reference.collaborators) 2 (Some a) w)
    = inl InvalidAggregateWeight /\
  live (snd (GenerateFlatInnerBag (C := Reference.collaborators) 2 (Some a) w))
    = ∅ /\
  live (snd (GenerateSingleInnerBag (C := Reference.collaborators) 2 (Some a) w))
    = ∅.
Proof. intros w a. split_and!; reflexivity. Qed.

(** * The further properties on numbers *)

(** Four samples with the weights [1], [0], [1], [1] and the draws 2, 2, 0,
    3. *)
Lemma GenerateSingleInnerBag_weighted_witness :
  let a := [Reference.one; float_zero; Reference.one; Reference.one] in
  let run := GenerateSingleInnerBag (C := Reference.collaborators) 4 (Some a)
               (Reference.world 7 []) in
  exists b,
    run = (inr b, snd run) /\
    elems (m_aCountOccurrences b) = [1; 0; 2; 1] /\
    sum_size_t (elems (m_aCountOccurrences b)) = 4 /\
    elems (m_aWeights b) !! 2%nat =
      Some (float_mul binary32 (float_of_size_t binary32 2) Reference.one) /\
    m_weightTotal b = float_of_size_t binary64 4.
Proof.
  intros a run.
  set (b := mkInnerBag 0 (mkArray 1 [1; 0; 2; 1])
              (mkArray 2 [Reference.one; float_zero;
                          float_of_size_t binary32 2; Reference.one])
              (float_of_size_t binary64 4)).
  assert (Hrun : run = (inr b, snd run)) by reflexivity.
  destruct (GenerateSingleInnerBag_weighted (C := Reference.collaborators)
              4 a (Reference.world 7 []) (snd run) b Reference_draw_in_range)
    as (_ & Hsum & _ & _ & Hweights & _);
    [unfold SIZE_MAX; lia | reflexivity | exact Hrun |].
  exists b. split; [exact Hrun|]. split; [reflexivity|]. split; [exact Hsum|].
  split; [|reflexivity].
  apply (Hweights 2%nat 2 Reference.one); reflexivity.
Defined.


Lemma factory_bag_owns_fresh_blocks_witness :
  let w := mkWorld (C := Reference.collaborators) {[ 0; 2 ]}%nat [] 7 in
  let run := GenerateFlatInnerBag (C := Reference.collaborators) 2 None w in
  exists b,
    run = (inr b, snd run) /\
    this b = 3%nat /\ base (m_aCountOccurrences b) = 4%nat /\
    base (m_aWeights b) = 5%nat /\
    (this b ∉ live w) /\
    live (snd run) = {[ this b; base (m_aCountOccurrences b);
                        base (m_aWeights b) ]} ∪ live w.
Proof.
  intros w run.
  set (b := mkInnerBag 3 (mkArray 4 [1; 1])
              (mkArray 5 [Reference.one; Reference.one])
              (float_of_size_t binary64 2)).
  assert (Hrun : run = (inr b, snd run)) by reflexivity.
  destruct (factory_bag_owns_fresh_blocks (C := Reference.collaborators)
              2 None w (snd run) b (or_intror Hrun))
    as (Hthis & _ & _ & _ & _ & _ & Hlive & _).
  exists b. split; [exact Hrun|]. do 3 (split; [reflexivity|]).
  split; [exact Hthis | exact Hlive].
Defined.

Lemma InnerBag_Free_restores_heap_witness :
  let w := mkWorld (C := Reference.collaborators) {[ 0; 2 ]}%nat [] 7 in
  let run := GenerateSingleInnerBag (C := Reference.collaborators) 4 None w in
  exists b,
    run = (inr b, snd run) /\
    live (InnerBag_Free b (snd run)) = live w.
Proof.
  intros w run.
  set (b := mkInnerBag 3 (mkArray 4 [1; 0; 2; 1])
              (mkArray 5 [Reference.one; float_zero;
                          float_of_size_t binary32 2; Reference.one])
              (float_of_size_t binary64 4)).
  assert (Hrun : run = (inr b, snd run)) by reflexivity.
  exists b. split; [exact Hrun|].
  apply (InnerBag_Free_restores_heap (C := Reference.collaborators)
           4 None w (snd run) b (or_introl Hrun)).
Defined.

Lemma unweighted_weight_zero_iff_undrawn_witness :
  let run := GenerateSingleInnerBag (C := Reference.collaborators) 4 None
               (Reference.world 7 []) in
  exists b,
    run = (inr b, snd run) /\
    elems (m_aCountOccurrences b) = [1; 0; 2; 1] /\
    elems (m_aWeights b) !! 1%nat = Some float_zero /\
    Forall2 (fun (x : FloatFast) (c : size_t) =>
               (c = 0 /\ x = float_zero) \/
               (0 < c /\ exists m e, x = S754_finite false m e))
            (elems (m_aWeights b)) (elems (m_aCountOccurrences b)).
Proof.
  intros run.
  set (b := mkInnerBag 0 (mkArray 1 [1; 0; 2; 1])
              (mkArray 2 [Reference.one; float_zero;
                          float_of_size_t binary32 2; Reference.one])
              (float_of_size_t binary64 4)).
  assert (Hrun : run = (inr b, snd run)) by reflexivity.
  exists b. split; [exact Hrun|]. do 2 (split; [reflexivity|]).
  apply (unweighted_weight_zero_iff_undrawn (C := Reference.collaborators)
           4 (Reference.world 7 []) (snd run) b Reference_draw_in_range).
  - unfold SIZE_MAX. lia.
  - exact Hrun.
Defined.

(** The second allocation fails: no bag, no draw, an empty heap. *)
Lemma allocation_failure_precedes_sampling_witness :
  let w := Reference.world 7 [false; true] in
  let a := Some [Reference.one; Reference.one] in
  mallocs_succeed 3 w = false /\
  fst (GenerateSingleInnerBag (C := Reference.collaborators) 2 a w)
    = inl AllocationFailure /\
  rng (snd (GenerateSingleInnerBag (C := Reference.collaborators) 2 a w)) = 7 /\
  fst (GenerateFlatInnerBag (C := Reference.collaborators) 2 a w)
    = inl AllocationFailure.
Proof.
  intros w a.
  assert (Hm : mallocs_succeed 3 w = false) by reflexivity.
  destruct (allocation_failure_precedes_sampling
              (C := Reference.collaborators) 2 a w Hm)
    as ((Hs & Hrng & _) & (Hf & _)).
  split; [exact Hm|]. split; [exact Hs|]. split; [exact Hrng | exact Hf].
Defined.

(** Two bags of three samples, built and released. *)
Lemma GenerateInnerBags_then_FreeInnerBags_witness :
  let w := Reference.world 7 [] in
  let run := GenerateInnerBags (C := Reference.collaborators) 2 3 None 2 w in
  exists ap w' w'',
    run = Some (Some ap, w') /\
    length (elems ap) = 2%nat /\
    FreeInnerBags 2 2 (Some ap) w' = Some w'' /\
    live w'' = live w.
Proof.
  intros w run.
  set (ap := mkArray 0
               [Some (mkInnerBag 1 (mkArray 2 [1; 1; 1])
                        (mkArray 3 [Reference.one; Reference.one; Reference.one])
                        (float_of_size_t binary64 3));
                Some (mkInnerBag 4 (mkArray 5 [0; 1; 2])
                        (mkArray 6 [float_zero; Reference.one;
                                    float_of_size_t binary32 2])
                        (float_of_size_t binary64 3))]).
  set (w' := match run with Some (_, w') => w' | None => w end).
  assert (Hrun : run = Some (Some ap, w')) by reflexivity.
  destruct (GenerateInnerBags_then_FreeInnerBags
              (C := Reference.collaborators) 2 2 3 None 2 w w' ap)
    as (w'' & Hfree & Hlive & _);
    [unfold SIZE_MAX; lia | simpl; lia | exact Hrun |].
  exists ap, w', w''. split; [exact Hrun|]. split; [reflexivity|].
  split; [exact Hfree | exact Hlive].
Defined.

Lemma GenerateInnerBags_draws_in_sequence_witness :
  let w := Reference.world 7 [] in
  let run := GenerateInnerBags (C := Reference.collaborators) 2 3 None 2 w in
  exists ap w' b,
    run = Some (Some ap, w') /\
    elems ap !! 1%nat = Some (Some b) /\
    elems (m_aCountOccurrences b) = [0; 1; 2] /\
    elems (m_aCountOccurrences b) =
      bootstrap_counts (C := Reference.collaborators) 3
        (draws (C := Reference.collaborators) 3 3 7) /\
    rng w' = draws (C := Reference.collaborators) 6 3 7.
Proof.
  intros w run.
  set (ap := mkArray 0
               [Some (mkInnerBag 1 (mkArray 2 [1; 1; 1])
                        (mkArray 3 [Reference.one; Reference.one; Reference.one])
                        (float_of_size_t binary64 3));
                Some (mkInnerBag 4 (mkArray 5 [0; 1; 2])
                        (mkArray 6 [float_zero; Reference.one;
                                    float_of_size_t binary32 2])
                        (float_of_size_t binary64 3))]).
  set (w' := match run with Some (_, w') => w' | None => w end).
  assert (Hrun : run = Some (Some ap, w')) by reflexivity.
  destruct (GenerateInnerBags_draws_in_sequence
              (C := Reference.collaborators) 2 3 None 2 w w' ap)
    as (_ & Hslots & Hrng & _); [unfold SIZE_MAX; lia | exact Hrun |].
  destruct (Hslots 1%nat) as (b & Hb & Hcounts); [simpl; lia|].
  exists ap, w', b. split; [exact Hrun|]. split; [exact Hb|].
  split; [|split; [exact Hcounts | exact Hrng]].
  cbn in Hb. injection Hb as <-. reflexivity.
Defined.

Lemma GenerateInnerBags_bags_own_separate_blocks_witness :
  let w := Reference.world 7 [] in
  let run := GenerateInnerBags (C := Reference.collaborators) 2 3 None 2 w in
  exists ap w' b0 b1,
    run = Some (Some ap, w') /\
    elems ap = [Some b0; Some b1] /\
    bag_blocks b0 ## bag_blocks b1 /\
    (base ap ∉ bag_blocks b0).
Proof.
  intros w run.
  set (b0 := mkInnerBag 1 (mkArray 2 [1; 1; 1])
               (mkArray 3 [Reference.one; Reference.one; Reference.one])
               (float_of_size_t binary64 3)).
  set (b1 := mkInnerBag 4 (mkArray 5 [0; 1; 2])
               (mkArray 6 [float_zero; Reference.one;
                           float_of_size_t binary32 2])
               (float_of_size_t binary64 3)).
  set (ap := mkArray 0 [Some b0; Some b1]).
  set (w' := match run with Some (_, w') => w' | None => w end).
  assert (Hrun : run = Some (Some ap, w')) by reflexivity.
  destruct (GenerateInnerBags_bags_own_separate_blocks
              (C := Reference.collaborators) 2 3 None 2 w w' ap)
    with (j := 0%nat) (bj := b0) as (Hbase & _ & Hothers);
    [unfold SIZE_MAX; lia | exact Hrun | reflexivity |].
  exists ap, w', b0, b1. split; [exact Hrun|]. split; [reflexivity|].
  split; [|exact Hbase].
  apply (Hothers 1%nat b1); [discriminate | reflexivity].
Defined.

Lemma weighted_total_sums_stored_weights_witness :
  let a := [float_zero; Reference.one; Reference.one] in
  let run := GenerateFlatInnerBag (C := Reference.collaborators) 2 (Some a)
               (Reference.world 0 []) in
  exists b,
    run = (inr b, snd run) /\
    elems (m_aWeights b) = [float_zero; Reference.one] /\
    m_weightTotal b =
      @AddPositiveFloatsSafeBig Reference.collaborators 2 (elems (m_aWeights b)).
Proof.
  intros a run.
  set (b := mkInnerBag 0 (mkArray 1 [1; 1])
              (mkArray 2 [float_zero; Reference.one])
              (float_of_size_t binary64 1)).
  assert (Hrun : run = (inr b, snd run)) by reflexivity.
  exists b. split; [exact Hrun|]. split; [reflexivity|].
  apply (weighted_total_sums_stored_weights (C := Reference.collaborators)
           2 a (Reference.world 0 []) (snd run) b (or_intror Hrun)).
Defined.

Lemma GenerateInnerBags_unweighted_succeeds_witness :
  let w := Reference.world 7 [false; false; false; false; false; false; false;
                             true] in
  mallocs_succeed 7 w = true /\
  exists ap w',
    GenerateInnerBags (C := Reference.collaborators) 2 3 None 2 w
      = Some (Some ap, w').
Proof.
  intros w.
  assert (Hm : mallocs_succeed 7 w = true) by reflexivity.
  split; [exact Hm|].
  apply (GenerateInnerBags_unweighted_succeeds (C := Reference.collaborators)
           2 3 2 w); [unfold SIZE_MAX; lia | simpl; lia | exact Hm].
Defined.
